(** * BCM2711 Mini-UART driver (rpi_uart.c): shallow embedding and properties

    The driver talks to the peripheral through [readl]/[writel] and to the
    kernel through a handful of services.  Every such interaction is
    recorded, in program order, in a history of events.  What the driver
    cannot decide itself is asked of an environment: the word a register
    read returns may depend on the whole history so far, and whether a
    mapping or a proc node can be obtained on what is asked for.  Loops of
    the source that no counter bounds take a recursion budget; a run that
    exhausts it ends in [OutOfFuel], a run that leaves an array or loads a
    cell never stored to ends in [Fault].  Format strings are recorded
    without their trailing newline. *)

From Stdlib Require Import String.
From Stdlib Require Import Strings.Byte.
From Stdlib Require Import ZArith List Lia Bool.
Import ListNotations.
Local Open Scope Z_scope.

(** ** Machine integers *)

Definition u32 (z : Z) : Z := z mod 2 ^ 32.
Definition u16 (z : Z) : Z := z mod 2 ^ 16.
Definition size_t (z : Z) : Z := z mod 2 ^ 64.

(** Two's-complement reading of the low 32 bits ([int]). *)
Definition s32 (z : Z) : Z := (z + 2 ^ 31) mod 2 ^ 32 - 2 ^ 31.

(** Two's-complement reading of the low 64 bits ([ssize_t], [loff_t]). *)
Definition s64 (z : Z) : Z := (z + 2 ^ 63) mod 2 ^ 64 - 2 ^ 63.

(** ** Characters *)

Definition NUL : byte := x00.
Definition LF : byte := x0a.
Definition CR : byte := x0d.

(** Integer promotion of a [char] (unsigned, as the kernel is built). *)
Definition int_of_char (c : byte) : Z := Z.of_N (Byte.to_N c).

(** The cast [(char)z] of a value already masked to eight bits. *)
Definition char_of_int (z : Z) : byte :=
  match Byte.of_N (Z.to_N (z mod 256)) with
  | Some b => b
  | None => NUL
  end.

(** ** Registers, regions and events *)

Inductive reg : Type :=
| GPFSEL1 | GPPUPPDN0
| ENABLES | MU_IO | MU_IER | MU_IIR | MU_LCR | MU_MCR | MU_LSR
| MU_CNTL | MU_STAT | MU_BAUD.

Definition reg_eqb (a b : reg) : bool :=
  match a, b with
  | GPFSEL1, GPFSEL1 | GPPUPPDN0, GPPUPPDN0 | ENABLES, ENABLES
  | MU_IO, MU_IO | MU_IER, MU_IER | MU_IIR, MU_IIR | MU_LCR, MU_LCR
  | MU_MCR, MU_MCR | MU_LSR, MU_LSR | MU_CNTL, MU_CNTL
  | MU_STAT, MU_STAT | MU_BAUD, MU_BAUD => true
  | _, _ => false
  end.

(** Registers reached through the [gpio] mapping; the others sit behind
    the [uart] mapping. *)
Definition is_gpio_reg (r : reg) : bool :=
  match r with GPFSEL1 | GPPUPPDN0 => true | _ => false end.

Inductive phys : Type := GPIO_BASE | AUX_BASE.

Definition phys_eqb (a b : phys) : bool :=
  match a, b with
  | GPIO_BASE, GPIO_BASE | AUX_BASE, AUX_BASE => true
  | _, _ => false
  end.

Inductive printk_arg : Type :=
| ArgInt (z : Z)
| ArgStr (s : list byte)
| ArgName (s : string).

Inductive loglevel : Type := KERN_INFO | KERN_ERR.

Inductive event : Type :=
| MMIO_read (r : reg) (v : Z)
| MMIO_write (r : reg) (v : Z)
| Cpu_relax
| Udelay (usecs : Z)
| Wmb
| Printk (lvl : loglevel) (fmt : string) (args : list printk_arg)
| Ioremap (p : phys) (ok : bool)
| Iounmap (p : phys)
| Proc_create (name : string) (mode : Z) (ok : bool)
| Proc_remove (name : string).

Definition history : Type := list event.

(** What the driver does not control. *)
Record env : Type := {
  dev_read : history -> reg -> Z;
  ioremap_ok : phys -> bool;
  proc_create_ok : string -> bool
}.

(** ** Outcomes and the driver monad *)

Inductive outcome (A : Type) : Type :=
| Done (a : A) (h : history)
| OutOfFuel
| Fault.

Arguments Done {A} a h.
Arguments OutOfFuel {A}.
Arguments Fault {A}.

Definition M (A : Type) : Type := history -> outcome A.

Definition ret {A} (a : A) : M A := fun h => Done a h.

Definition bind {A B} (m : M A) (k : A -> M B) : M B :=
  fun h =>
    match m h with
    | Done a h' => k a h'
    | OutOfFuel => OutOfFuel
    | Fault => Fault
    end.

Definition out_of_fuel {A} : M A := fun _ => OutOfFuel.
Definition fault {A} : M A := fun _ => Fault.

Definition emit (e : event) : M unit := fun h => Done tt (h ++ [e]).

Declare Scope drv_scope.
Delimit Scope drv_scope with drv.
Notation "x <- m ;; k" := (bind m (fun x => k))
  (at level 61, m at next level, right associativity) : drv_scope.
Notation "m ;;; k" := (bind m (fun _ => k))
  (at level 61, right associativity) : drv_scope.
Local Open Scope drv_scope.

(** ** Constants of uart.h *)

(** Modelled from the spec: uart.h is not among the sources; section 4.1
    gives "value 2 selects alternate-function-5". *)
Definition GPIO_FSEL_ALT5 : Z := 2.

(** Modelled from the spec: uart.h is not among the sources; section 4.1
    gives "0 = no pull, 1 = pull-up, 2 = pull-down". *)
Definition GPIO_PUPDN_NONE : Z := 0.
Definition GPIO_PUPDN_UP : Z := 1.

(** Modelled from the spec: uart.h is not among the sources; section 3
    names the two nodes "uart_tx" and "uart_rx". *)
Definition PROC_UART_TX : string := "uart_tx".
Definition PROC_UART_RX : string := "uart_rx".

Definition ENOMEM : Z := 12.
Definition EFAULT : Z := 14.

Section Driver.

Variable E : env.

(** ** Kernel primitives *)

Definition readl (r : reg) : M Z :=
  fun h => let v := u32 (dev_read E h r) in Done v (h ++ [MMIO_read r v]).

Definition writel (v : Z) (r : reg) : M unit := emit (MMIO_write r (u32 v)).

Definition cpu_relax : M unit := emit Cpu_relax.
Definition udelay (usecs : Z) : M unit := emit (Udelay usecs).
Definition wmb : M unit := emit Wmb.
Definition pr_info (fmt : string) (args : list printk_arg) : M unit :=
  emit (Printk KERN_INFO fmt args).
Definition pr_err (fmt : string) (args : list printk_arg) : M unit :=
  emit (Printk KERN_ERR fmt args).

(** ** delay_cycles *)

(** [while (count--) cpu_relax();]: the body runs once for every value the
    counter takes before it reaches zero. *)
Fixpoint delay_loop (n : nat) : M unit :=
  match n with
  | O => ret tt
  | S n' => cpu_relax ;;; delay_loop n'
  end.

Definition delay_cycles (count : Z) : M unit :=
  delay_loop (Z.to_nat (u32 count)).

(** ** uart_init_os *)

Definition baud_val : Z := u16 (500000000 / (9600 * 8) - 1).

Definition uart_init_os : M unit :=
  val <- readl GPFSEL1 ;;
  let val := u32 (Z.land val (Z.lnot (Z.lor (Z.shiftl 7 12) (Z.shiftl 7 15)))) in
  let val := u32 (Z.lor val (Z.lor (Z.shiftl GPIO_FSEL_ALT5 12)
                                   (Z.shiftl GPIO_FSEL_ALT5 15))) in
  writel val GPFSEL1 ;;;
  val <- readl GPPUPPDN0 ;;
  let val := u32 (Z.land val (Z.lnot (Z.lor (s32 (Z.shiftl 3 28))
                                            (s32 (Z.shiftl 3 30))))) in
  let val := u32 (Z.lor val (Z.lor (s32 (Z.shiftl GPIO_PUPDN_NONE 28))
                                   (s32 (Z.shiftl GPIO_PUPDN_UP 30)))) in
  writel val GPPUPPDN0 ;;;
  delay_cycles 150 ;;;
  val <- readl ENABLES ;;
  writel (Z.lor val 1) ENABLES ;;;
  writel 0 MU_CNTL ;;;
  writel 0 MU_IER ;;;
  writel 2 MU_IIR ;;;
  writel 4 MU_IIR ;;;
  writel 3 MU_LCR ;;;
  writel 0 MU_MCR ;;;
  writel baud_val MU_BAUD ;;;
  writel 3 MU_CNTL ;;;
  wmb ;;;
  pr_info "Mini UART initialized successfully" [].

(** ** Kernel buffers

    A [char kbuf[256]] on the stack starts out uninitialised: a cell holds
    a byte only after it was stored to.  Loading an uninitialised cell, or
    touching a cell outside the array, is a fault. *)

Definition cell : Type := option byte.

Definition KBUF_SIZE : Z := 256.

Definition fresh_kbuf : list cell := repeat None (Z.to_nat KBUF_SIZE).

Fixpoint poke (buf : list cell) (n : nat) (c : byte) : list cell :=
  match buf, n with
  | [], _ => []
  | _ :: buf', O => Some c :: buf'
  | x :: buf', S n' => x :: poke buf' n' c
  end.

(** [buf[idx] = c]. *)
Definition store (buf : list cell) (idx : Z) (c : byte) : M (list cell) :=
  if (0 <=? idx) && (idx <? Z.of_nat (length buf))
  then ret (poke buf (Z.to_nat idx) c)
  else fault.

(** The first [n] bytes of a buffer, as [copy_to_user] reads them. *)
Fixpoint peek (buf : list cell) (n : nat) {struct n} : option (list byte) :=
  match n with
  | O => Some []
  | S n' =>
      match buf with
      | Some b :: buf' => option_map (cons b) (peek buf' n')
      | _ => None
      end
  end.

(** The bytes of a buffer up to its first NUL, as [%s] reads them. *)
Fixpoint c_str (buf : list cell) : option (list byte) :=
  match buf with
  | Some b :: buf' =>
      if Byte.eqb b NUL then Some [] else option_map (cons b) (c_str buf')
  | _ => None
  end.

Definition lift {A} (o : option A) : M A :=
  match o with
  | Some a => ret a
  | None => fault
  end.

(** A string literal: its bytes and the terminator the compiler adds. *)
Definition c_literal (bs : list byte) : list cell := map Some bs ++ [Some NUL].

(** ** User memory

    Of the user's buffer only the bytes that can be accessed matter: a
    source buffer is the list of bytes readable from [buf] on, a
    destination buffer the number of bytes writable from [buf] on.  Both
    copy helpers return the number of bytes they could not copy. *)

Definition copy_from_user (umem : list byte) (n : Z) : Z * list byte :=
  (Z.of_nat (Z.to_nat n - length umem), firstn (Z.to_nat n) umem).

Definition copy_to_user (ucap : nat) (src : list byte) (n : Z) : Z * list byte :=
  (Z.of_nat (Z.to_nat n - ucap), firstn (Nat.min (Z.to_nat n) ucap) src).

(** [copy_from_user(kbuf, buf, len)] leaves its bytes at the start of the
    kernel buffer. *)
Definition blit (dst : list cell) (src : list byte) : list cell :=
  map Some src ++ skipn (length src) dst.

(** ** Transmit path *)

(** The spin of [uart_send_char] on bit 5 of the line status register. *)
Fixpoint tx_spin (fuel : nat) : M unit :=
  match fuel with
  | O => out_of_fuel
  | S n =>
      lsr <- readl MU_LSR ;;
      if Z.land lsr (Z.shiftl 1 5) =? 0 then tx_spin n else ret tt
  end.

Fixpoint uart_send_char (fuel : nat) (c : byte) : M unit :=
  match fuel with
  | O => out_of_fuel
  | S n =>
      (if Byte.eqb c LF then uart_send_char n CR else ret tt) ;;;
      tx_spin fuel ;;;
      writel (u32 (Z.land (int_of_char c) 255)) MU_IO
  end.

Fixpoint uart_send_string (fuel : nat) (s : list cell) : M unit :=
  match s with
  | Some c :: s' =>
      if Byte.eqb c NUL then ret tt
      else
        (if Byte.eqb c LF then uart_send_char fuel CR else ret tt) ;;;
        uart_send_char fuel c ;;;
        uart_send_string fuel s'
  | _ => fault
  end.

(** ** Receive path *)

Definition uart_data_available : M Z :=
  lsr <- readl MU_LSR ;;
  ret (s32 (Z.land lsr (Z.shiftl 1 0))).

Definition uart_receive_char : M byte :=
  a <- uart_data_available ;;
  if a =? 0 then ret NUL
  else
    v <- readl MU_IO ;;
    ret (char_of_int (Z.land v 255)).

Record rx_state : Type := {
  kbuf : list cell;
  i : Z;
  consecutive_no_data : Z
}.

Definition MAX_CONSECUTIVE_NO_DATA : Z := 300.

(** [while (!uart_data_available() && timeout-- > 0) udelay(1000);]
    yielding the value [timeout] is left with. *)
Fixpoint first_byte_wait (fuel : nat) (timeout : Z) : M Z :=
  match fuel with
  | O => out_of_fuel
  | S n =>
      a <- uart_data_available ;;
      if a =? 0 then
        let before := timeout in
        let timeout := s32 (timeout - 1) in
        if before >? 0 then udelay 1000 ;;; first_byte_wait n timeout
        else ret timeout
      else ret timeout
  end.

(** Room left in [kbuf] and in the caller's buffer:
    [i < (sizeof(kbuf) - 1) && i < count], compared as [size_t]. *)
Definition rx_room (count : Z) (st : rx_state) : bool :=
  (size_t (i st) <? KBUF_SIZE - 1) && (size_t (i st) <? count).

(** The inner loop of the drain. *)
Fixpoint rx_burst (fuel : nat) (count : Z) (st : rx_state) : M rx_state :=
  match fuel with
  | O => out_of_fuel
  | S n =>
      a <- uart_data_available ;;
      if negb (a =? 0) && rx_room count st then
        c <- uart_receive_char ;;
        st' <- (if negb (Byte.eqb c NUL) then
                  kb <- store (kbuf st) (i st) c ;;
                  ret {| kbuf := kb;
                         i := s32 (i st + 1);
                         consecutive_no_data := 0 |}
                else ret st) ;;
        rx_burst n count st'
      else ret st
  end.

(** One more millisecond without data. *)
Definition rx_idle_tick (st : rx_state) : M rx_state :=
  udelay 1000 ;;;
  ret {| kbuf := kbuf st;
         i := i st;
         consecutive_no_data := s32 (consecutive_no_data st + 1) |}.

(** The outer loop of the drain. *)
Fixpoint rx_drain (fuel : nat) (count : Z) (st : rx_state) : M rx_state :=
  match fuel with
  | O => out_of_fuel
  | S n =>
      if rx_room count st then
        st <- rx_burst n count st ;;
        quiet <- (if i st >? 0
                  then a <- uart_data_available ;; ret (a =? 0)
                  else ret false) ;;
        if quiet then
          st <- rx_idle_tick st ;;
          if consecutive_no_data st >=? MAX_CONSECUTIVE_NO_DATA
          then ret st
          else rx_drain n count st
        else
          quiet0 <- (if i st =? 0
                     then a <- uart_data_available ;; ret (a =? 0)
                     else ret false) ;;
          if quiet0 then
            st <- rx_idle_tick st ;;
            if consecutive_no_data st >=? MAX_CONSECUTIVE_NO_DATA
            then ret st
            else rx_drain n count st
          else rx_drain n count st
      else ret st
  end.

(** What a handler hands back: its return value, the bytes it placed in
    the user's buffer and the file position it leaves. *)
Record io_result : Type := {
  retval : Z;
  to_user : list byte;
  pos : Z
}.

(** Lines 184-197: terminate, copy out, advance the cursor, log. *)
Definition rx_deliver (ucap : nat) (ppos : Z) (st : rx_state) : M io_result :=
  if i st =? 0 then ret {| retval := 0; to_user := []; pos := ppos |}
  else
    kb <- store (kbuf st) (i st) NUL ;;
    src <- lift (peek kb (Z.to_nat (size_t (i st)))) ;;
    let '(missed, copied) := copy_to_user ucap src (size_t (i st)) in
    if negb (missed =? 0)
    then ret {| retval := - EFAULT; to_user := copied; pos := ppos |}
    else
      let ppos := s64 (ppos + i st) in
      text <- lift (c_str kb) ;;
      pr_info "UART RX: received %d bytes: %s" [ArgInt (i st); ArgStr text] ;;;
      ret {| retval := i st; to_user := copied; pos := ppos |}.

Definition rx_start : rx_state :=
  {| kbuf := fresh_kbuf; i := 0; consecutive_no_data := 0 |}.

Definition uart_proc_read (fuel : nat) (ucap : nat) (count : Z) (ppos : Z)
  : M io_result :=
  if ppos >? 0 then ret {| retval := 0; to_user := []; pos := ppos |}
  else
    timeout <- first_byte_wait fuel 1000 ;;
    if timeout <=? 0 then ret {| retval := 0; to_user := []; pos := ppos |}
    else
      st <- rx_drain fuel count rx_start ;;
      rx_deliver ucap ppos st.

Definition uart_proc_write (fuel : nat) (umem : list byte) (count : Z)
  : M Z :=
  let len := Z.min count (KBUF_SIZE - 1) in
  let '(missed, bytes) := copy_from_user umem len in
  if negb (missed =? 0) then ret (- EFAULT)
  else
    kb <- store (blit fresh_kbuf bytes) len NUL ;;
    uart_send_string fuel kb ;;;
    pr_info "UART TX: sent %zu bytes" [ArgInt len] ;;;
    ret (s64 count).

(** ** Module load *)

Definition ioremap (p : phys) : M bool :=
  fun h => let ok := ioremap_ok E p in Done ok (h ++ [Ioremap p ok]).

Definition iounmap (p : phys) : M unit := emit (Iounmap p).

Definition proc_create (name : string) (mode : Z) : M bool :=
  fun h =>
    let ok := proc_create_ok E name in
    Done ok (h ++ [Proc_create name mode ok]).

Definition proc_remove (name : string) : M unit := emit (Proc_remove name).

Definition load_banner : list byte :=
  list_byte_of_string "Mini UART driver loaded successfully!" ++ [CR; LF].

Definition uart_driver_init (fuel : nat) : M Z :=
  gpio <- ioremap GPIO_BASE ;;
  if negb gpio then
    pr_err "Failed to map GPIO registers" [] ;;;
    ret (- ENOMEM)
  else
    uart <- ioremap AUX_BASE ;;
    if negb uart then
      pr_err "Failed to map UART registers" [] ;;;
      iounmap GPIO_BASE ;;;
      ret (- ENOMEM)
    else
      uart_init_os ;;;
      proc_tx <- proc_create PROC_UART_TX 438 ;;
      if negb proc_tx then
        pr_err "Failed to create /proc/%s" [ArgName PROC_UART_TX] ;;;
        iounmap AUX_BASE ;;;
        iounmap GPIO_BASE ;;;
        ret (- ENOMEM)
      else
        proc_rx <- proc_create PROC_UART_RX 438 ;;
        if negb proc_rx then
          pr_err "Failed to create /proc/%s" [ArgName PROC_UART_RX] ;;;
          proc_remove PROC_UART_TX ;;;
          iounmap AUX_BASE ;;;
          iounmap GPIO_BASE ;;;
          ret (- ENOMEM)
        else
          uart_send_string fuel (c_literal load_banner) ;;;
          pr_info "UART driver loaded." [] ;;;
          pr_info "Write to /proc/%s to send data" [ArgName PROC_UART_TX] ;;;
          pr_info "Read from /proc/%s to receive data" [ArgName PROC_UART_RX] ;;;
          ret 0.

(** ** Module unload *)

Definition unload_banner : list byte :=
  list_byte_of_string "Mini UART driver unloading..." ++ [CR; LF].

(** [uart] and [gpio] say whether the static pointers of those names are
    non-NULL when the module is unloaded. *)
Definition uart_driver_exit (fuel : nat) (uart gpio : bool) : M unit :=
  uart_send_string fuel (c_literal unload_banner) ;;;
  proc_remove PROC_UART_TX ;;;
  proc_remove PROC_UART_RX ;;;
  (if uart then iounmap AUX_BASE else ret tt) ;;;
  (if gpio then iounmap GPIO_BASE else ret tt) ;;;
  pr_info "UART driver unloaded." [].

End Driver.

(** * Views of a trace

    Read-only projections of histories, used to state what a run did. *)

(** The words written to register [r], in order. *)
Definition writes_to (r : reg) (t : list event) : list Z :=
  flat_map (fun e => match e with
                     | MMIO_write r' v => if reg_eqb r r' then [v] else []
                     | _ => []
                     end) t.

(** The word last written to register [r], if any. *)
Definition last_write (r : reg) (t : list event) : option Z :=
  match rev (writes_to r t) with
  | v :: _ => Some v
  | [] => None
  end.

Definition is_write (e : event) : bool :=
  match e with MMIO_write _ _ => true | _ => false end.

Definition is_uart_write (e : event) : bool :=
  match e with MMIO_write r _ => negb (is_gpio_reg r) | _ => false end.

Definition is_gpio_write (e : event) : bool :=
  match e with MMIO_write r _ => is_gpio_reg r | _ => false end.

(** The word [uart_init_os] stores to GPFSEL1 after reading [f]. *)
Definition gpfsel1_word (f : Z) : Z :=
  u32 (Z.lor (u32 (Z.land f (Z.lnot (Z.lor (Z.shiftl 7 12) (Z.shiftl 7 15)))))
             (Z.lor (Z.shiftl GPIO_FSEL_ALT5 12) (Z.shiftl GPIO_FSEL_ALT5 15))).

(** The word [uart_init_os] stores to GPPUPPDN0 after reading [p]. *)
Definition gppuppdn0_word (p : Z) : Z :=
  u32 (Z.lor (u32 (Z.land p (Z.lnot (Z.lor (s32 (Z.shiftl 3 28))
                                           (s32 (Z.shiftl 3 30))))))
             (Z.lor (s32 (Z.shiftl GPIO_PUPDN_NONE 28))
                    (s32 (Z.shiftl GPIO_PUPDN_UP 30)))).

Definition init_gpio_trace (f p : Z) : list event :=
  [ MMIO_read GPFSEL1 f; MMIO_write GPFSEL1 (gpfsel1_word f);
    MMIO_read GPPUPPDN0 p; MMIO_write GPPUPPDN0 (gppuppdn0_word p) ].

Definition init_uart_trace (e : Z) : list event :=
  [ MMIO_read ENABLES e; MMIO_write ENABLES (Z.lor e 1);
    MMIO_write MU_CNTL 0; MMIO_write MU_IER 0;
    MMIO_write MU_IIR 2; MMIO_write MU_IIR 4;
    MMIO_write MU_LCR 3; MMIO_write MU_MCR 0;
    MMIO_write MU_BAUD 6509; MMIO_write MU_CNTL 3;
    Wmb;
    Printk KERN_INFO "Mini UART initialized successfully" [] ].

Definition init_trace (f p e : Z) : list event :=
  init_gpio_trace f p ++ repeat Cpu_relax 150 ++ init_uart_trace e.

(** The mappings the driver holds after a trace: obtained and not yet
    released. *)
Definition track_mapping (held : list phys) (e : event) : list phys :=
  match e with
  | Ioremap p true => p :: held
  | Iounmap p => filter (fun q => negb (phys_eqb p q)) held
  | _ => held
  end.

Definition mappings_owned (t : list event) : list phys :=
  fold_left track_mapping t [].

(** The proc nodes the driver holds after a trace. *)
Definition track_node (held : list string) (e : event) : list string :=
  match e with
  | Proc_create name _ true => name :: held
  | Proc_remove name => filter (fun q => negb (String.eqb name q)) held
  | _ => held
  end.

Definition nodes_owned (t : list event) : list string :=
  fold_left track_node t [].

(** ** Concrete environments *)

(** How many reads of register [r] a history holds. *)
Definition count_reads (r : reg) (h : history) : nat :=
  List.length
    (filter (fun e => match e with
                      | MMIO_read r' _ => reg_eqb r r'
                      | _ => false
                      end) h).

(** A line whose transmitter always has room and whose receiver holds the
    bytes [rx] from the [arrive]-th status poll on; mappings always
    succeed, node [n] can be created when [nodes n] says so. *)
Definition line_env (arrive : nat) (rx : list byte) (nodes : string -> bool)
  : env :=
  {| dev_read := fun h r =>
       match r with
       | MU_LSR =>
           Z.lor 32
             (if (arrive <=? count_reads MU_LSR h)%nat
                 && (count_reads MU_IO h <? List.length rx)%nat
              then 1 else 0)
       | MU_IO => int_of_char (nth (count_reads MU_IO h) rx NUL)
       | _ => 0
       end;
     ioremap_ok := fun _ => true;
     proc_create_ok := nodes |}.

Definition all_nodes : string -> bool := fun _ => true.

(** Every node but the rx node can be created. *)
Definition no_rx_node : string -> bool :=
  fun name => negb (String.eqb name PROC_UART_RX).

(** ** The serial line *)

(** The bytes of a buffer that lie before its first NUL. *)
Fixpoint until_nul (s : list byte) : list byte :=
  match s with
  | [] => []
  | c :: s' => if Byte.eqb c NUL then [] else c :: until_nul s'
  end.

(** What one call of [uart_send_char] stores to MU_IO. *)
Definition char_on_line (c : byte) : list Z :=
  if Byte.eqb c LF then [int_of_char CR; int_of_char LF] else [int_of_char c].

(** What [uart_send_string] stores to MU_IO for the NUL-free bytes [s]: its
    own CR ahead of a LF, then whatever [uart_send_char] sends. *)
Definition string_on_line (s : list byte) : list Z :=
  flat_map (fun c => (if Byte.eqb c LF then [int_of_char CR] else [])
                     ++ char_on_line c) s.

(** The translation the interface promises: one CR ahead of every LF. *)
Definition crlf (s : list byte) : list Z :=
  flat_map (fun c => if Byte.eqb c LF
                     then [int_of_char CR; int_of_char LF]
                     else [int_of_char c]) s.

(** A 400-byte payload without NUL that starts with a line feed. *)
Definition lf_payload : list byte := LF :: repeat "a"%byte 399.

(** The history after [k] more polls of the line status register. *)
Fixpoint after_polls (E : env) (k : nat) (h : history) : history :=
  match k with
  | O => h
  | S k' =>
      after_polls E k' (h ++ [MMIO_read MU_LSR (u32 (dev_read E h MU_LSR))])
  end.

(** The transmitter reports room at the next poll. *)
Definition tx_ready (E : env) (h : history) : bool :=
  negb (Z.land (u32 (dev_read E h MU_LSR)) (Z.shiftl 1 5) =? 0).

(** However the line got where it is, polling long enough finds room in
    the transmit FIFO. *)
Definition tx_drains (E : env) : Prop :=
  forall h, exists k, tx_ready E (after_polls E k h) = true.

(** ** The receiver *)

(** What [uart_data_available] makes of the status word [v]. *)
Definition lsr_ready (v : Z) : bool :=
  negb (s32 (Z.land v (Z.shiftl 1 0)) =? 0).

(** The answers [uart_data_available] got, one per status poll. *)
Definition polls (t : list event) : list bool :=
  flat_map (fun e => match e with
                     | MMIO_read MU_LSR v => [lsr_ready v]
                     | _ => []
                     end) t.

(** The non-NUL characters taken out of the receive FIFO. *)
Definition rx_bytes (t : list event) : list byte :=
  flat_map (fun e => match e with
                     | MMIO_read MU_IO v =>
                         let c := char_of_int (Z.land v 255) in
                         if Byte.eqb c NUL then [] else [c]
                     | _ => []
                     end) t.

(** Reading MU_IO takes a byte out of the receive FIFO; storing to any
    register changes what the register holds. *)
Definition alters_peripheral (e : event) : bool :=
  match e with
  | MMIO_write _ _ => true
  | MMIO_read MU_IO _ => true
  | _ => false
  end.

(** Status polls with one millisecond of delay between neighbours. *)
Fixpoint spaced_polls (t : list event) : bool :=
  match t with
  | [MMIO_read MU_LSR _] => true
  | MMIO_read MU_LSR _ :: Udelay 1000 :: t' => spaced_polls t'
  | _ => false
  end.

(** The receiver reports data at the next poll. *)
Definition rx_ready (E : env) (h : history) : bool :=
  lsr_ready (u32 (dev_read E h MU_LSR)).

(** From some number of status polls on, the receiver reports nothing. *)
Definition rx_falls_silent (E : env) : Prop :=
  exists N, forall h, (N <= count_reads MU_LSR h)%nat -> rx_ready E h = false.

(** A verdict on an outcome that holds of every run that does not fault:
    a run cut short by its budget promises nothing. *)
Definition post {A} (o : outcome A) (P : A -> history -> Prop) : Prop :=
  match o with
  | Done a h => P a h
  | OutOfFuel => True
  | Fault => False
  end.

(** A trace that stores to no register. *)
Definition reads_only (t : list event) : Prop :=
  Forall (fun e => is_write e = false) t.

(** What the drain loops keep true of their state once the non-NUL
    characters [got] have been taken off the line: they fill the start of
    [kbuf], [i] counts them and has not passed either capacity, and the
    idle counter has not passed its threshold. *)
Definition rx_inv (count : Z) (got : list byte) (st : rx_state) : Prop :=
  i st = Z.of_nat (List.length got) /\
  i st <= Z.min (KBUF_SIZE - 1) count /\
  List.length (kbuf st) = Z.to_nat KBUF_SIZE /\
  firstn (List.length got) (kbuf st) = map Some got /\
  ~ In NUL got /\
  0 <= consecutive_no_data st <= MAX_CONSECUTIVE_NO_DATA.

(** What a read that got past the gate hands back once the non-NUL
    characters [got] were collected. *)
Definition read_verdict (ucap : nat) (ppos : Z) (got : list byte) : io_result :=
  match got with
  | [] => {| retval := 0; to_user := []; pos := ppos |}
  | _ :: _ =>
      if (ucap <? List.length got)%nat
      then {| retval := - EFAULT; to_user := firstn ucap got; pos := ppos |}
      else {| retval := Z.of_nat (List.length got);
              to_user := got;
              pos := s64 (ppos + Z.of_nat (List.length got)) |}
  end.

(** The log line of a successful read. *)
Definition rx_log (got : list byte) : list event :=
  match got with
  | [] => []
  | _ :: _ =>
      [ Printk KERN_INFO "UART RX: received %d bytes: %s"
               [ArgInt (Z.of_nat (List.length got)); ArgStr got] ]
  end.

(** A line like [line_env 0 rx] whose receiver reports nothing from the
    [stop]-th status poll on. *)
Definition burst_env (rx : list byte) (stop : nat) : env :=
  {| dev_read := fun h r =>
       match r with
       | MU_LSR =>
           Z.lor 32
             (if (count_reads MU_LSR h <? stop)%nat
                 && (count_reads MU_IO h <? List.length rx)%nat
              then 1 else 0)
       | MU_IO => int_of_char (nth (count_reads MU_IO h) rx NUL)
       | _ => 0
       end;
     ioremap_ok := fun _ => true;
     proc_create_ok := fun _ => true |}.

(** Status polls still to go before a line that is silent from the
    [N]-th poll on is known to be silent. *)
Definition left_to_poll (N : nat) (h : history) : nat :=
  (N - count_reads MU_LSR h)%nat.

(** Idle ticks still to go before the threshold. *)
Definition ticks_left (st : rx_state) : nat :=
  Z.to_nat (MAX_CONSECUTIVE_NO_DATA - consecutive_no_data st).

(** ** Guarded FIFO accesses *)

(** What [uart_send_char] makes of the status word [v]. *)
Definition lsr_has_room (v : Z) : bool :=
  negb (Z.land v (Z.shiftl 1 5) =? 0).

(** One step of the check that the FIFO register MU_IO is only accessed
    right after a status read that allows it: a store needs bit 5 of that
    status word, a load bit 0.  The state is the status word read by the
    event just before, if that event was a status read. *)
Definition guard_step (prev : option Z) (e : event) : option (option Z) :=
  match e with
  | MMIO_read MU_LSR v => Some (Some v)
  | MMIO_write MU_IO _ =>
      match prev with
      | Some v => if lsr_has_room v then Some None else None
      | None => None
      end
  | MMIO_read MU_IO _ =>
      match prev with
      | Some v => if lsr_ready v then Some None else None
      | None => None
      end
  | _ => Some None
  end.

Fixpoint guard_scan (prev : option Z) (t : list event) : option (option Z) :=
  match t with
  | [] => Some prev
  | e :: t' =>
      match guard_step prev e with
      | Some p => guard_scan p t'
      | None => None
      end
  end.

(** The trace passes the check from whatever state it is entered in. *)
Definition guarded (t : list event) : Prop :=
  forall prev, guard_scan prev t <> None.

(** The events a transmission is made of. *)
Definition tx_event (e : event) : bool :=
  match e with
  | MMIO_read MU_LSR _ | MMIO_write MU_IO _ | Printk _ _ _ => true
  | _ => false
  end.

(** The events a reception is made of. *)
Definition rx_event (e : event) : bool :=
  match e with
  | MMIO_read MU_LSR _ | MMIO_read MU_IO _ | Printk _ _ _ => true
  | Udelay us => us =? 1000
  | _ => false
  end.

(** How many [udelay] calls a trace holds. *)
Definition count_delays (t : list event) : nat :=
  List.length (filter (fun e => match e with Udelay _ => true | _ => false end) t).

(** A verdict on an outcome that holds of every run that returns. *)
Definition ensures {A} (o : outcome A) (P : A -> history -> Prop) : Prop :=
  match o with
  | Done a h => P a h
  | _ => True
  end.

(** ** Register accesses and mappings *)

(** The region a register lies in. *)
Definition region_of (r : reg) : phys :=
  if is_gpio_reg r then GPIO_BASE else AUX_BASE.

Definition is_held (p : phys) (held : list phys) : bool :=
  existsb (phys_eqb p) held.

(** Every register access of the trace falls on a region that is mapped
    at that moment, starting with the mappings [held]. *)
Fixpoint mapped_access (held : list phys) (t : list event) : bool :=
  match t with
  | [] => true
  | e :: t' =>
      match e with
      | MMIO_read r _ | MMIO_write r _ => is_held (region_of r) held
      | _ => true
      end
      && mapped_access (track_mapping held e) t'
  end.

(** All four acquisitions of a load succeed. *)
Definition load_can_succeed (E : env) : bool :=
  ioremap_ok E GPIO_BASE && ioremap_ok E AUX_BASE
  && proc_create_ok E PROC_UART_TX && proc_create_ok E PROC_UART_RX.

(** A trace made of reception events in which every access to MU_IO is
    guarded. *)
Definition rx_shape (t : list event) : Prop :=
  forallb rx_event t = true /\ guarded t.

(** The microseconds a trace spends in [udelay]. *)
Definition slept (t : list event) : Z :=
  fold_right (fun e acc => match e with Udelay us => us + acc | _ => acc end)
             0 t.

(** * Properties *)

(** ** Machine integers *)

Lemma u32_range z : 0 <= u32 z < 2 ^ 32.
Proof. unfold u32. apply Z.mod_pos_bound. lia. Qed.

Lemma u32_small z : 0 <= z < 2 ^ 32 -> u32 z = z.
Proof. intros H. unfold u32. apply Z.mod_small. exact H. Qed.

Lemma u32_idem z : u32 (u32 z) = u32 z.
Proof. apply u32_small, u32_range. Qed.

Lemma s32_small z : - 2 ^ 31 <= z < 2 ^ 31 -> s32 z = z.
Proof. intros H. unfold s32. rewrite Z.mod_small; lia. Qed.

Lemma s64_small z : - 2 ^ 63 <= z < 2 ^ 63 -> s64 z = z.
Proof. intros H. unfold s64. rewrite Z.mod_small; lia. Qed.

Lemma size_t_small z : 0 <= z < 2 ^ 64 -> size_t z = z.
Proof. intros H. unfold size_t. apply Z.mod_small. exact H. Qed.

Lemma u32_testbit z n : Z.testbit (u32 z) n = (n <? 32) && Z.testbit z n.
Proof. unfold u32. apply Z.testbit_mod_pow2. lia. Qed.

Lemma low_bit_index n : 0 <= n < 32 -> In n (map Z.of_nat (seq 0 32)).
Proof.
  intros H. rewrite <- (Z2Nat.id n) by lia.
  apply in_map, in_seq. lia.
Qed.

(** Bitwise equality of two words built from constants and one unknown
    32-bit word: the low bits are settled one by one, the high ones by
    range. *)
Ltac bitblast :=
  apply Z.bits_inj'; intros n Hn;
  repeat first
    [ rewrite u32_testbit
    | rewrite Z.land_spec
    | rewrite Z.lor_spec
    | rewrite Z.lnot_spec by lia
    | rewrite Z.shiftr_spec by lia ];
  destruct (Z.ltb_spec n 32) as [Hlo | Hhi];
  [ pose proof (low_bit_index n (conj Hn Hlo)) as Hin; simpl in Hin;
    repeat (destruct Hin as [<- | Hin];
            [ cbn;
              repeat rewrite ?andb_false_r, ?andb_true_r, ?orb_false_r,
                             ?orb_true_r, ?andb_false_l;
              try reflexivity | ]);
    try contradiction
  | repeat match goal with
           | |- context [?a <? 32] =>
               replace (a <? 32) with false by (symmetry; apply Z.ltb_ge; lia)
           end;
    cbn [andb orb];
    repeat match goal with
           | |- context [Z.testbit ?c n] =>
               rewrite (Z.bits_above_log2 c n) by (cbn; lia)
           end;
    try reflexivity ].

(** ** Running the monad *)

Lemma bind_done {A B} (m : M A) (k : A -> M B) h a h' :
  m h = Done a h' -> bind m k h = k a h'.
Proof. intros H. unfold bind. rewrite H. reflexivity. Qed.

Lemma bind_inv {A B} (m : M A) (k : A -> M B) h b h2 :
  bind m k h = Done b h2 ->
  exists a h1, m h = Done a h1 /\ k a h1 = Done b h2.
Proof.
  unfold bind. destruct (m h) as [a h1 | |]; try discriminate.
  intros H. exists a, h1. split; [reflexivity | exact H].
Qed.

Lemma delay_loop_run n h :
  delay_loop n h = Done tt (h ++ repeat Cpu_relax n).
Proof.
  revert h. induction n as [| n IH]; intros h; simpl.
  - rewrite app_nil_r. reflexivity.
  - unfold bind, cpu_relax, emit. rewrite IH, <- app_assoc. reflexivity.
Qed.

(** ** Trace views *)

Lemma writes_to_app r t1 t2 :
  writes_to r (t1 ++ t2) = writes_to r t1 ++ writes_to r t2.
Proof. unfold writes_to. apply flat_map_app. Qed.

Lemma last_write_app r h t v :
  last_write r t = Some v -> last_write r (h ++ t) = Some v.
Proof.
  unfold last_write. rewrite writes_to_app, rev_app_distr.
  destruct (rev (writes_to r t)) as [| x l]; [discriminate |].
  intros H. exact H.
Qed.

(** ** Bring-up *)

Lemma lor_1_u32 e : u32 (Z.lor (u32 e) 1) = Z.lor (u32 e) 1.
Proof. bitblast. Qed.

Lemma uart_init_os_run E h :
  exists f p e,
    uart_init_os E h = Done tt (h ++ init_trace (u32 f) (u32 p) (u32 e)).
Proof.
  unfold uart_init_os, wmb, pr_info, delay_cycles.
  unfold bind, readl, writel, emit.
  cbv beta iota zeta. rewrite delay_loop_run. cbv beta iota zeta.
  eexists _, _, _. f_equal.
  rewrite <- !app_assoc. f_equal.
  repeat match goal with
         | |- context [u32 (u32 ?x)] => rewrite (u32_idem x)
         end.
  match goal with
  | |- context [u32 (Z.lor (u32 ?x) 1)] => rewrite (lor_1_u32 x)
  end.
  unfold init_trace, init_gpio_trace, init_uart_trace.
  unfold gpfsel1_word, gppuppdn0_word.
  cbn [app]. reflexivity.
Qed.

Lemma gpfsel1_tx_field f : Z.land (Z.shiftr (gpfsel1_word (u32 f)) 12) 7 = 2.
Proof. unfold gpfsel1_word. bitblast. Qed.

Lemma gpfsel1_rx_field f : Z.land (Z.shiftr (gpfsel1_word (u32 f)) 15) 7 = 2.
Proof. unfold gpfsel1_word. bitblast. Qed.

Lemma gpfsel1_others f :
  Z.land (gpfsel1_word (u32 f)) (Z.lnot (Z.lor (Z.shiftl 7 12) (Z.shiftl 7 15)))
  = Z.land (u32 f) (Z.lnot (Z.lor (Z.shiftl 7 12) (Z.shiftl 7 15))).
Proof. unfold gpfsel1_word. bitblast. Qed.

Lemma gppuppdn0_tx_field p :
  Z.land (Z.shiftr (gppuppdn0_word (u32 p)) 28) 3 = 0.
Proof. unfold gppuppdn0_word. bitblast. Qed.

Lemma gppuppdn0_rx_field p :
  Z.land (Z.shiftr (gppuppdn0_word (u32 p)) 30) 3 = 1.
Proof. unfold gppuppdn0_word. bitblast. Qed.

Lemma gppuppdn0_others p :
  Z.land (gppuppdn0_word (u32 p)) (Z.lnot (Z.lor (Z.shiftl 3 28) (Z.shiftl 3 30)))
  = Z.land (u32 p) (Z.lnot (Z.lor (Z.shiftl 3 28) (Z.shiftl 3 30))).
Proof. unfold gppuppdn0_word. bitblast. Qed.

(** C7.  The divisor stored to MU_BAUD during bring-up is
    [(500_000_000 / 76_800) - 1] under truncating division, that is 6509,
    and the 16-bit register holds it without loss. *)
Theorem baud_divisor_6509 :
  baud_val = 500000000 / 76800 - 1 /\
  baud_val = 6509 /\
  0 <= 500000000 / 76800 - 1 < 2 ^ 16 /\
  forall E h, exists t,
    uart_init_os E h = Done tt (h ++ t) /\ writes_to MU_BAUD t = [6509].
Proof.
  split; [reflexivity |]. split; [reflexivity |].
  split; [split; [discriminate | reflexivity] |].
  intros E h. destruct (uart_init_os_run E h) as (f & p & e & Hrun).
  exists (init_trace (u32 f) (u32 p) (u32 e)). split; [exact Hrun |].
  reflexivity.
Qed.

(** C2.  Whatever the registers read back, [uart_init_os] performs exactly
    this sequence: read GPFSEL1 and store it back with both serial pins'
    3-bit fields (bits 12 and 15) set to alternate function 5 and every
    other bit kept; read GPPUPPDN0 and store it back with the TX pin's
    field (bit 28) at no-pull, the RX pin's (bit 30) at pull-up and every
    other bit kept; 150 [cpu_relax]; read ENABLES and store it with bit 0
    set; 0 to CNTL; 0 to IER; 2 then 4 to IIR; 3 to LCR; 0 to MCR; the
    divisor to BAUD; 3 to CNTL; a write barrier; the log line.  No UART
    register is written within the GPIO part, no GPIO register after it,
    and CNTL and LCR are left at 3. *)
Theorem uart_init_os_sequence E h :
  exists f p e,
    (0 <= f < 2 ^ 32 /\ 0 <= p < 2 ^ 32 /\ 0 <= e < 2 ^ 32) /\
    uart_init_os E h =
      Done tt
        (h ++
         [ MMIO_read GPFSEL1 f; MMIO_write GPFSEL1 (gpfsel1_word f);
           MMIO_read GPPUPPDN0 p; MMIO_write GPPUPPDN0 (gppuppdn0_word p) ]
         ++ repeat Cpu_relax 150 ++
         [ MMIO_read ENABLES e; MMIO_write ENABLES (Z.lor e 1);
           MMIO_write MU_CNTL 0; MMIO_write MU_IER 0;
           MMIO_write MU_IIR 2; MMIO_write MU_IIR 4;
           MMIO_write MU_LCR 3; MMIO_write MU_MCR 0;
           MMIO_write MU_BAUD baud_val; MMIO_write MU_CNTL 3;
           Wmb;
           Printk KERN_INFO "Mini UART initialized successfully" [] ]) /\
    (Z.land (Z.shiftr (gpfsel1_word f) 12) 7 = GPIO_FSEL_ALT5 /\
     Z.land (Z.shiftr (gpfsel1_word f) 15) 7 = GPIO_FSEL_ALT5 /\
     Z.land (gpfsel1_word f) (Z.lnot (Z.lor (Z.shiftl 7 12) (Z.shiftl 7 15)))
     = Z.land f (Z.lnot (Z.lor (Z.shiftl 7 12) (Z.shiftl 7 15)))) /\
    (Z.land (Z.shiftr (gppuppdn0_word p) 28) 3 = GPIO_PUPDN_NONE /\
     Z.land (Z.shiftr (gppuppdn0_word p) 30) 3 = GPIO_PUPDN_UP /\
     Z.land (gppuppdn0_word p) (Z.lnot (Z.lor (Z.shiftl 3 28) (Z.shiftl 3 30)))
     = Z.land p (Z.lnot (Z.lor (Z.shiftl 3 28) (Z.shiftl 3 30)))) /\
    (Z.testbit (Z.lor e 1) 0 = true /\
     forall n, 0 < n -> Z.testbit (Z.lor e 1) n = Z.testbit e n) /\
    forallb (fun ev => negb (is_uart_write ev)) (init_gpio_trace f p) = true /\
    forallb (fun ev => negb (is_gpio_write ev))
            (repeat Cpu_relax 150 ++ init_uart_trace e) = true /\
    last_write MU_CNTL (h ++ init_trace f p e) = Some 3 /\
    last_write MU_LCR (h ++ init_trace f p e) = Some 3.
Proof.
  destruct (uart_init_os_run E h) as (f & p & e & Hrun).
  exists (u32 f), (u32 p), (u32 e).
  split; [repeat split; apply u32_range |].
  split; [exact Hrun |].
  split; [split; [apply gpfsel1_tx_field
                 | split; [apply gpfsel1_rx_field | apply gpfsel1_others]] |].
  split; [split; [apply gppuppdn0_tx_field
                 | split; [apply gppuppdn0_rx_field | apply gppuppdn0_others]] |].
  split.
  { split.
    - rewrite Z.lor_spec. apply orb_true_r.
    - intros n Hn. rewrite Z.lor_spec.
      replace (Z.testbit 1 n) with false; [apply orb_false_r |].
      symmetry. apply Z.bits_above_log2; simpl; lia. }
  split; [reflexivity |]. split; [reflexivity |].
  split; apply last_write_app; reflexivity.
Qed.

(** ** Module load *)

Lemma init_trace_holds_nothing f p e held nodes :
  fold_left track_mapping (init_trace f p e) held = held /\
  fold_left track_node (init_trace f p e) nodes = nodes.
Proof. split; reflexivity. Qed.

(** C8.  When a step of [uart_driver_init] cannot get its resource, the
    load returns [-ENOMEM] and the driver is left holding no mapping and no
    node.  If the tx node cannot be created, the AUX and GPIO mappings are
    released, in that order, right after the failure is logged; if the rx
    node cannot be created, the tx node is removed first and then both
    mappings are released. *)
Theorem load_failure_rolls_back E fuel h :
  ioremap_ok E GPIO_BASE && ioremap_ok E AUX_BASE
    && proc_create_ok E PROC_UART_TX && proc_create_ok E PROC_UART_RX = false ->
  exists t,
    uart_driver_init E fuel h = Done (- ENOMEM) (h ++ t) /\
    mappings_owned t = [] /\
    nodes_owned t = [] /\
    (ioremap_ok E GPIO_BASE = true -> ioremap_ok E AUX_BASE = true ->
     proc_create_ok E PROC_UART_TX = false ->
     exists f p e,
       t = [Ioremap GPIO_BASE true; Ioremap AUX_BASE true]
           ++ init_trace f p e ++
           [ Proc_create PROC_UART_TX 438 false;
             Printk KERN_ERR "Failed to create /proc/%s" [ArgName PROC_UART_TX];
             Iounmap AUX_BASE; Iounmap GPIO_BASE ]) /\
    (ioremap_ok E GPIO_BASE = true -> ioremap_ok E AUX_BASE = true ->
     proc_create_ok E PROC_UART_TX = true ->
     proc_create_ok E PROC_UART_RX = false ->
     exists f p e,
       t = [Ioremap GPIO_BASE true; Ioremap AUX_BASE true]
           ++ init_trace f p e ++
           [ Proc_create PROC_UART_TX 438 true;
             Proc_create PROC_UART_RX 438 false;
             Printk KERN_ERR "Failed to create /proc/%s" [ArgName PROC_UART_RX];
             Proc_remove PROC_UART_TX;
             Iounmap AUX_BASE; Iounmap GPIO_BASE ]).
Proof.
  intros Hfail. unfold uart_driver_init.
  unfold bind at 1. unfold ioremap at 1.
  destruct (ioremap_ok E GPIO_BASE) eqn:Hg; cbn [negb].
  2:{ eexists. split; [unfold bind, pr_err, emit, ret; rewrite <- app_assoc;
                       reflexivity |].
      repeat split; try reflexivity; discriminate. }
  unfold bind at 1. unfold ioremap at 1.
  destruct (ioremap_ok E AUX_BASE) eqn:Hu; cbn [negb].
  2:{ eexists. split; [unfold bind, pr_err, iounmap, emit, ret;
                       rewrite <- !app_assoc; reflexivity |].
      repeat split; try reflexivity; discriminate. }
  destruct (uart_init_os_run E ((h ++ [Ioremap GPIO_BASE true])
                                  ++ [Ioremap AUX_BASE true]))
    as (f & p & e & Hrun).
  rewrite (bind_done _ _ _ _ _ Hrun).
  unfold bind at 1. unfold proc_create at 1.
  destruct (proc_create_ok E PROC_UART_TX) eqn:Htx; cbn [negb].
  2:{ eexists. split; [unfold bind, pr_err, iounmap, emit, ret;
                       rewrite <- !app_assoc; reflexivity |].
      unfold mappings_owned, nodes_owned.
      cbn [app fold_left track_mapping track_node].
      rewrite !fold_left_app.
      destruct (init_trace_holds_nothing (u32 f) (u32 p) (u32 e)
                  [AUX_BASE; GPIO_BASE] []) as [-> ->].
      split; [reflexivity |]. split; [reflexivity |].
      split; [intros _ _ _; exists (u32 f), (u32 p), (u32 e); reflexivity |].
      discriminate. }
  unfold bind at 1. unfold proc_create at 1.
  destruct (proc_create_ok E PROC_UART_RX) eqn:Hrx; cbn [negb].
  { discriminate Hfail. }
  eexists. split; [unfold bind, pr_err, proc_remove, iounmap, emit, ret;
                   rewrite <- !app_assoc; reflexivity |].
  unfold mappings_owned, nodes_owned.
  cbn [app fold_left track_mapping track_node].
  rewrite !fold_left_app.
  destruct (init_trace_holds_nothing (u32 f) (u32 p) (u32 e)
              [AUX_BASE; GPIO_BASE] []) as [-> ->].
  split; [reflexivity |]. split; [reflexivity |].
  split; [discriminate |].
  intros _ _ _ _. exists (u32 f), (u32 p), (u32 e). reflexivity.
Qed.

Lemma load_failure_rolls_back_witness :
  exists t,
    uart_driver_init (line_env 0 [] no_rx_node) 0 [] = Done (- ENOMEM) ([] ++ t) /\
    mappings_owned t = [] /\ nodes_owned t = [] /\
    In (Proc_remove PROC_UART_TX) t.
Proof.
  destruct (load_failure_rolls_back (line_env 0 [] no_rx_node) 0 [] eq_refl)
    as (t & Hrun & Hm & Hn & _ & Hrx).
  exists t. repeat split; try assumption.
  destruct (Hrx eq_refl eq_refl eq_refl eq_refl) as (f & p & e & ->).
  apply in_or_app. right. apply in_or_app. right. simpl. tauto.
Defined.

(** ** Transmit path *)

Lemma bind_ext {A B} (m : M A) (k1 k2 : A -> M B) h :
  (forall a h', k1 a h' = k2 a h') -> bind m k1 h = bind m k2 h.
Proof.
  intros Hk. unfold bind. destruct (m h); [apply Hk | reflexivity ..].
Qed.

Lemma masked_char c : u32 (u32 (Z.land (int_of_char c) 255)) = int_of_char c.
Proof. destruct c; reflexivity. Qed.

Lemma tx_spin_mono E n m h u h' :
  tx_spin E n h = Done u h' -> (n <= m)%nat -> tx_spin E m h = Done u h'.
Proof.
  revert m h. induction n as [| n IH]; intros m h Hrun Hle.
  - discriminate.
  - destruct m as [| m]; [lia |].
    cbn [tx_spin] in *. unfold bind, readl in *. cbv zeta in *.
    destruct (Z.land (u32 (dev_read E h MU_LSR)) (Z.shiftl 1 5) =? 0).
    + apply IH; [exact Hrun | lia].
    + exact Hrun.
Qed.

Lemma tx_spin_writes E n h u h' :
  tx_spin E n h = Done u h' ->
  exists t, h' = h ++ t /\ Forall (fun e => is_write e = false) t.
Proof.
  revert h. induction n as [| n IH]; intros h Hrun.
  - discriminate.
  - cbn [tx_spin] in Hrun. unfold bind, readl in Hrun. cbv zeta in Hrun.
    destruct (Z.land (u32 (dev_read E h MU_LSR)) (Z.shiftl 1 5) =? 0).
    + destruct (IH _ Hrun) as (t & -> & Ht).
      eexists. rewrite <- app_assoc. split; [reflexivity |].
      constructor; [reflexivity | exact Ht].
    + inversion Hrun; subst.
      eexists. split; [reflexivity |]. repeat constructor.
Qed.

Lemma tx_spin_ends E k :
  forall h n, tx_ready E (after_polls E k h) = true -> (k < n)%nat ->
              exists h', tx_spin E n h = Done tt h'.
Proof.
  induction k as [| k IH]; intros h n Hready Hlt;
    (destruct n as [| n]; [lia |]);
    cbn [tx_spin]; unfold bind, readl; cbv zeta.
  - cbn [after_polls] in Hready. unfold tx_ready in Hready.
    destruct (Z.land (u32 (dev_read E h MU_LSR)) (Z.shiftl 1 5) =? 0);
      [discriminate |].
    eexists. reflexivity.
  - destruct (Z.land (u32 (dev_read E h MU_LSR)) (Z.shiftl 1 5) =? 0).
    + apply IH; [exact Hready | lia].
    + eexists. reflexivity.
Qed.

Lemma no_write_no_io t :
  Forall (fun e => is_write e = false) t -> writes_to MU_IO t = [].
Proof.
  induction 1 as [| e t He _ IH]; [reflexivity |].
  simpl. rewrite IH. destruct e; try reflexivity. discriminate.
Qed.

Lemma uart_send_char_mono E n :
  forall m c h u h',
    uart_send_char E n c h = Done u h' -> (n <= m)%nat ->
    uart_send_char E m c h = Done u h'.
Proof.
  induction n as [| n IH]; intros m c h u h' Hrun Hle.
  - discriminate.
  - destruct m as [| m]; [lia |].
    cbn [uart_send_char] in *.
    apply bind_inv in Hrun. destruct Hrun as (u1 & h1 & H1 & Hrun).
    apply bind_inv in Hrun. destruct Hrun as (u2 & h2 & H2 & Hrun).
    assert (H1' : (if Byte.eqb c LF then uart_send_char E m CR else ret tt) h
                  = Done u1 h1).
    { destruct (Byte.eqb c LF); [apply IH; [exact H1 | lia] | exact H1]. }
    rewrite (bind_done _ _ _ _ _ H1').
    rewrite (bind_done _ _ _ _ _ (tx_spin_mono E _ (S m) _ _ _ H2 ltac:(lia))).
    exact Hrun.
Qed.

Lemma uart_send_char_line E n :
  forall c h u h',
    uart_send_char E n c h = Done u h' ->
    exists t, h' = h ++ t /\ writes_to MU_IO t = char_on_line c.
Proof.
  induction n as [| n IH]; intros c h u h' Hrun.
  - discriminate.
  - cbn [uart_send_char] in Hrun.
    apply bind_inv in Hrun. destruct Hrun as (u1 & h1 & H1 & Hrun).
    apply bind_inv in Hrun. destruct Hrun as (u2 & h2 & H2 & Hrun).
    apply tx_spin_writes in H2. destruct H2 as (t2 & -> & Ht2).
    unfold writel, emit in Hrun. inversion Hrun; subst; clear Hrun.
    rewrite masked_char. unfold char_on_line.
    destruct (Byte.eqb c LF) eqn:Hc.
    + apply IH in H1. destruct H1 as (t1 & -> & Ht1).
      exists (t1 ++ t2 ++ [MMIO_write MU_IO (int_of_char c)]).
      rewrite <- !app_assoc. split; [reflexivity |].
      rewrite !writes_to_app, Ht1, (no_write_no_io _ Ht2).
      apply Byte.byte_dec_bl in Hc. subst c. reflexivity.
    + unfold ret in H1. inversion H1; subst.
      exists (t2 ++ [MMIO_write MU_IO (int_of_char c)]).
      rewrite <- !app_assoc. split; [reflexivity |].
      rewrite writes_to_app, (no_write_no_io _ Ht2). reflexivity.
Qed.

Lemma uart_send_char_plain E c k h n :
  Byte.eqb c LF = false ->
  tx_ready E (after_polls E k h) = true -> (k < n)%nat ->
  exists h', uart_send_char E n c h = Done tt h'.
Proof.
  intros Hc Hready Hlt. destruct n as [| n]; [lia |].
  cbn [uart_send_char]. rewrite Hc.
  destruct (tx_spin_ends E k h (S n) Hready Hlt) as (h1 & H1).
  unfold bind at 1. unfold ret at 1.
  rewrite (bind_done _ _ _ _ _ H1).
  eexists. reflexivity.
Qed.

Lemma uart_send_char_ends E :
  tx_drains E ->
  forall c h, exists n h', uart_send_char E n c h = Done tt h'.
Proof.
  intros Hdrain c h.
  destruct (Byte.eqb c LF) eqn:Hc.
  - destruct (Hdrain h) as (k0 & Hk0).
    destruct (uart_send_char_plain E CR k0 h (S k0) eq_refl Hk0 ltac:(lia))
      as (h1 & H1).
    destruct (Hdrain h1) as (k1 & Hk1).
    destruct (tx_spin_ends E k1 h1 (S (Nat.max (S k0) k1)) Hk1 ltac:(lia))
      as (h2 & H2).
    exists (S (Nat.max (S k0) k1)). cbn [uart_send_char]. rewrite Hc.
    rewrite (bind_done _ _ _ _ _
               (uart_send_char_mono E _ (Nat.max (S k0) k1) _ _ _ _ H1
                  ltac:(lia))).
    rewrite (bind_done _ _ _ _ _ H2).
    eexists. reflexivity.
  - destruct (Hdrain h) as (k & Hk).
    exists (S k). apply (uart_send_char_plain E c k h (S k) Hc Hk). lia.
Qed.

Lemma uart_send_string_mono E n m s :
  forall h u h',
    uart_send_string E n s h = Done u h' -> (n <= m)%nat ->
    uart_send_string E m s h = Done u h'.
Proof.
  induction s as [| [c |] s IH]; intros h u h' Hrun Hle;
    try discriminate.
  cbn [uart_send_string] in *.
  destruct (Byte.eqb c NUL); [exact Hrun |].
  apply bind_inv in Hrun. destruct Hrun as (u1 & h1 & H1 & Hrun).
  apply bind_inv in Hrun. destruct Hrun as (u2 & h2 & H2 & Hrun).
  assert (H1' : (if Byte.eqb c LF then uart_send_char E m CR else ret tt) h
                = Done u1 h1).
  { destruct (Byte.eqb c LF);
      [apply (uart_send_char_mono E n); assumption | exact H1]. }
  rewrite (bind_done _ _ _ _ _ H1').
  rewrite (bind_done _ _ _ _ _ (uart_send_char_mono E n m _ _ _ _ H2 Hle)).
  apply IH; assumption.
Qed.

Lemma uart_send_string_line E n s :
  forall h u h',
    uart_send_string E n s h = Done u h' ->
    exists bs t,
      c_str s = Some bs /\ h' = h ++ t /\
      writes_to MU_IO t = string_on_line bs.
Proof.
  induction s as [| [c |] s IH]; intros h u h' Hrun; try discriminate.
  cbn [uart_send_string] in Hrun. cbn [c_str].
  destruct (Byte.eqb c NUL).
  { inversion Hrun; subst. exists [], [].
    rewrite app_nil_r. repeat split. }
  apply bind_inv in Hrun. destruct Hrun as (u1 & h1 & H1 & Hrun).
  apply bind_inv in Hrun. destruct Hrun as (u2 & h2 & H2 & Hrun).
  apply uart_send_char_line in H2. destruct H2 as (t2 & -> & Ht2).
  apply IH in Hrun. destruct Hrun as (bs & t3 & Hbs & -> & Ht3).
  rewrite Hbs. cbn [option_map].
  assert (H1' : exists t1, h1 = h ++ t1 /\
                  writes_to MU_IO t1
                  = if Byte.eqb c LF then [int_of_char CR] else []).
  { destruct (Byte.eqb c LF).
    - apply uart_send_char_line in H1. exact H1.
    - inversion H1; subst. exists []. rewrite app_nil_r. split; reflexivity. }
  destruct H1' as (t1 & -> & Ht1).
  exists (c :: bs), (t1 ++ t2 ++ t3).
  rewrite <- !app_assoc. repeat split.
  rewrite !writes_to_app, Ht1, Ht2, Ht3.
  unfold string_on_line. cbn [flat_map]. rewrite <- app_assoc. reflexivity.
Qed.

Lemma uart_send_string_ends E :
  tx_drains E ->
  forall s bs, c_str s = Some bs ->
  forall h, exists n h', uart_send_string E n s h = Done tt h'.
Proof.
  intros Hdrain.
  induction s as [| [c |] s IH]; intros bs Hbs h; try discriminate.
  cbn [c_str] in Hbs. cbn [uart_send_string].
  destruct (Byte.eqb c NUL).
  { exists O. eexists. reflexivity. }
  destruct (c_str s) as [bs' |] eqn:Hs; [| discriminate].
  assert (H1 : exists n1 h1,
             (if Byte.eqb c LF then uart_send_char E n1 CR else ret tt) h
             = Done tt h1).
  { destruct (Byte.eqb c LF).
    - apply uart_send_char_ends. exact Hdrain.
    - exists O. eexists. reflexivity. }
  destruct H1 as (n1 & h1 & H1).
  destruct (uart_send_char_ends E Hdrain c h1) as (n2 & h2 & H2).
  destruct (IH bs' eq_refl h2) as (n3 & h3 & H3).
  exists (Nat.max n1 (Nat.max n2 n3)), h3.
  assert (H1' : (if Byte.eqb c LF
                 then uart_send_char E (Nat.max n1 (Nat.max n2 n3)) CR
                 else ret tt) h = Done tt h1).
  { destruct (Byte.eqb c LF);
      [apply (uart_send_char_mono E n1); [exact H1 | lia] | exact H1]. }
  rewrite (bind_done _ _ _ _ _ H1').
  rewrite (bind_done _ _ _ _ _
             (uart_send_char_mono E n2 (Nat.max n1 (Nat.max n2 n3))
                _ _ _ _ H2 ltac:(lia))).
  apply (uart_send_string_mono E n3); [exact H3 | lia].
Qed.

Lemma tx_spin_safe E n h : tx_spin E n h <> Fault.
Proof.
  revert h. induction n as [| n IH]; intros h; [discriminate |].
  cbn [tx_spin]. unfold bind, readl. cbv zeta.
  destruct (Z.land _ _ =? 0); [apply IH | discriminate].
Qed.

Lemma bind_safe {A B} (m : M A) (k : A -> M B) h :
  m h <> Fault -> (forall a h', k a h' <> Fault) -> bind m k h <> Fault.
Proof.
  intros Hm Hk. unfold bind.
  destruct (m h); [apply Hk | discriminate | contradiction Hm; reflexivity].
Qed.

Lemma uart_send_char_safe E n : forall c h, uart_send_char E n c h <> Fault.
Proof.
  induction n as [| n IH]; intros c h; [discriminate |].
  cbn [uart_send_char].
  apply bind_safe; [destruct (Byte.eqb c LF); [apply IH | discriminate] |].
  intros _ h1. apply bind_safe; [apply tx_spin_safe |].
  intros _ h2. discriminate.
Qed.

Lemma uart_send_string_safe E n s :
  forall bs h, c_str s = Some bs -> uart_send_string E n s h <> Fault.
Proof.
  induction s as [| [c |] s IH]; intros bs h Hbs; try discriminate.
  cbn [c_str] in Hbs. cbn [uart_send_string].
  destruct (Byte.eqb c NUL); [discriminate |].
  destruct (c_str s) as [bs' |]; [| discriminate].
  apply bind_safe;
    [destruct (Byte.eqb c LF); [apply uart_send_char_safe | discriminate] |].
  intros _ h1. apply bind_safe; [apply uart_send_char_safe |].
  intros _ h2. apply (IH bs'). reflexivity.
Qed.

(** *** The write handler's buffer *)

Lemma skipn_repeat_none (n m : nat) :
  skipn n (repeat (@None byte) m) = repeat None (m - n).
Proof.
  revert m. induction n as [| n IH]; intros m.
  - rewrite Nat.sub_0_r. reflexivity.
  - destruct m as [| m]; [reflexivity |]. simpl. apply IH.
Qed.

Lemma poke_middle (l1 : list cell) x l2 c :
  poke (l1 ++ x :: l2) (List.length l1) c = l1 ++ Some c :: l2.
Proof.
  induction l1 as [| y l1 IH]; [reflexivity |].
  simpl. rewrite IH. reflexivity.
Qed.

Lemma c_str_prefix bs rest :
  c_str (map Some bs ++ Some NUL :: rest) = Some (until_nul bs).
Proof.
  induction bs as [| b bs IH]; [reflexivity |].
  simpl. destruct (Byte.eqb b NUL); [reflexivity |].
  rewrite IH. reflexivity.
Qed.

Lemma terminated_kbuf bs h :
  (List.length bs <= 255)%nat ->
  store (blit fresh_kbuf bs) (Z.of_nat (List.length bs)) NUL h
  = Done (map Some bs ++ Some NUL :: repeat None (255 - List.length bs)) h.
Proof.
  intros Hlen. unfold store, blit, fresh_kbuf.
  rewrite skipn_repeat_none.
  replace (Z.to_nat KBUF_SIZE - List.length bs)%nat
    with (S (255 - List.length bs)) by (unfold KBUF_SIZE; lia).
  cbn [repeat].
  rewrite length_app, length_map. cbn [List.length]. rewrite repeat_length.
  replace (0 <=? Z.of_nat (List.length bs)) with true
    by (symmetry; apply Z.leb_le; lia).
  replace (Z.of_nat (List.length bs)
           <? Z.of_nat (List.length bs + S (255 - List.length bs)))
    with true by (symmetry; apply Z.ltb_lt; lia).
  cbn [andb]. unfold ret. f_equal.
  rewrite Nat2Z.id.
  rewrite <- (length_map (@Some byte) bs) at 2.
  apply poke_middle.
Qed.

Lemma uart_proc_write_run E fuel umem count h :
  0 <= count ->
  (Z.to_nat (Z.min count 255) <= List.length umem)%nat ->
  let bytes := firstn (Z.to_nat (Z.min count 255)) umem in
  uart_proc_write E fuel umem count h
  = (uart_send_string E fuel
       (map Some bytes ++ Some NUL :: repeat None (255 - List.length bytes)) ;;;
     pr_info "UART TX: sent %zu bytes" [ArgInt (Z.min count 255)] ;;;
     ret (s64 count)) h.
Proof.
  intros Hc Hlen bytes. unfold uart_proc_write, copy_from_user.
  change (KBUF_SIZE - 1) with 255.
  replace (Z.to_nat (Z.min count 255) - List.length umem)%nat with O by lia.
  cbn [Z.of_nat Z.eqb negb].
  assert (Hb : List.length bytes = Z.to_nat (Z.min count 255)).
  { unfold bytes. rewrite length_firstn. lia. }
  fold bytes.
  replace (Z.min count 255) with (Z.of_nat (List.length bytes)) at 1 by lia.
  rewrite (bind_done _ _ _ _ _ (terminated_kbuf bytes h ltac:(lia))).
  reflexivity.
Qed.

Lemma line_env_drains arrive rx nodes : tx_drains (line_env arrive rx nodes).
Proof.
  intros h. exists O. cbn [after_polls]. unfold tx_ready, line_env.
  cbn [dev_read].
  destruct ((arrive <=? count_reads MU_LSR h)%nat
            && (count_reads MU_IO h <? List.length rx)%nat); reflexivity.
Qed.

(** C10.  Whatever the write handler copied, only the bytes before the
    first NUL of the copied prefix (the first [min(count, 255)] bytes of the
    payload) reach MU_IO: the stores to MU_IO are exactly what
    [uart_send_string] sends for those bytes, so no byte at or after an
    embedded NUL is written.  The handler never faults, it returns the
    full [count], and it does return on a line whose transmitter drains. *)
Theorem write_stops_at_first_nul E umem count h :
  0 <= count < 2 ^ 63 ->
  (Z.to_nat (Z.min count 255) <= List.length umem)%nat ->
  let sent := until_nul (firstn (Z.to_nat (Z.min count 255)) umem) in
  (forall fuel r h',
      uart_proc_write E fuel umem count h = Done r h' ->
      r = count /\
      exists t, h' = h ++ t /\ writes_to MU_IO t = string_on_line sent) /\
  (forall fuel, uart_proc_write E fuel umem count h <> Fault) /\
  (tx_drains E ->
   exists fuel h', uart_proc_write E fuel umem count h = Done count h').
Proof.
  intros Hc Hlen sent.
  pose proof (uart_proc_write_run E) as Hrun.
  set (kb := map Some (firstn (Z.to_nat (Z.min count 255)) umem)
             ++ Some NUL
                :: repeat None
                     (255 - List.length
                              (firstn (Z.to_nat (Z.min count 255)) umem))).
  assert (Hkb : c_str kb = Some sent) by apply c_str_prefix.
  split; [| split].
  - intros fuel r h' H. rewrite Hrun in H by lia. fold kb in H.
    apply bind_inv in H. destruct H as (u & h1 & H1 & H).
    apply uart_send_string_line in H1.
    destruct H1 as (bs & t & Hbs & -> & Ht).
    rewrite Hkb in Hbs. inversion Hbs; subst bs.
    unfold bind, pr_info, emit, ret in H. inversion H; subst.
    split; [apply s64_small; lia |].
    eexists. rewrite <- app_assoc. split; [reflexivity |].
    rewrite writes_to_app, Ht. cbn. apply app_nil_r.
  - intros fuel. rewrite Hrun by lia. fold kb.
    apply bind_safe; [apply (uart_send_string_safe E fuel kb sent h Hkb) |].
    intros _ h1. discriminate.
  - intros Hdrain.
    destruct (uart_send_string_ends E Hdrain kb sent Hkb h) as (n & h1 & H1).
    exists n. eexists. rewrite Hrun by lia. fold kb.
    rewrite (bind_done _ _ _ _ _ H1).
    unfold bind, pr_info, emit, ret. rewrite s64_small by lia. reflexivity.
Qed.

Lemma write_stops_at_first_nul_witness :
  exists h',
    uart_proc_write (line_env 0 [] all_nodes) 2 ["h"%byte; NUL; "i"%byte] 3 []
    = Done 3 h' /\
    writes_to MU_IO h' = [104].
Proof.
  destruct (write_stops_at_first_nul (line_env 0 [] all_nodes)
              ["h"%byte; NUL; "i"%byte] 3 [] ltac:(lia) ltac:(simpl; lia))
    as (Hline & _ & _).
  eexists. split; [reflexivity |].
  destruct (Hline 2%nat _ _ eq_refl) as (_ & t & Ht & Hio).
  transitivity (writes_to MU_IO t); [f_equal; exact Ht | exact Hio].
Defined.

(** ** Receive path *)

Lemma post_bind {A B} (m : M A) (k : A -> M B) h (Q : B -> history -> Prop) :
  post (m h) (fun a h1 => post (k a h1) Q) -> post (bind m k h) Q.
Proof. unfold bind, post. destruct (m h); intros H; exact H. Qed.

Lemma post_weaken {A} (o : outcome A) (P Q : A -> history -> Prop) :
  post o P -> (forall a h, P a h -> Q a h) -> post o Q.
Proof. destruct o; simpl; auto. Qed.

Lemma post_done {A} (o : outcome A) P a h : post o P -> o = Done a h -> P a h.
Proof. intros H ->. exact H. Qed.

Lemma uart_data_available_run E h :
  uart_data_available E h
  = Done (s32 (Z.land (u32 (dev_read E h MU_LSR)) (Z.shiftl 1 0)))
         (h ++ [MMIO_read MU_LSR (u32 (dev_read E h MU_LSR))]).
Proof. reflexivity. Qed.

Lemma polls_app t1 t2 : polls (t1 ++ t2) = polls t1 ++ polls t2.
Proof. apply flat_map_app. Qed.

Lemma rx_bytes_app t1 t2 : rx_bytes (t1 ++ t2) = rx_bytes t1 ++ rx_bytes t2.
Proof. apply flat_map_app. Qed.

(** *** The wait for the first byte *)

(** The wait started with [T] rounds to go either sees data at one of its
    first [T] polls and keeps a positive count, or sees none there, polls
    once more and is left with a count that is not positive, whatever
    that last poll said. *)
Lemma first_byte_wait_run E (T : nat) :
  forall fuel h, (T < fuel)%nat -> (Z.of_nat T < 2 ^ 31) ->
  exists r t,
    first_byte_wait E fuel (Z.of_nat T) h = Done r (h ++ t) /\
    spaced_polls t = true /\ rx_bytes t = [] /\
    Forall (fun e => is_write e = false) t /\
    ((exists k, (k < T)%nat /\ polls t = repeat false k ++ [true] /\
                r = Z.of_nat (T - k))
     \/ (exists b, polls t = repeat false T ++ [b] /\ r <= 0)).
Proof.
  induction T as [| T IH]; intros fuel h Hfuel HT;
    (destruct fuel as [| fuel]; [lia |]);
    cbn [first_byte_wait];
    rewrite (bind_done _ _ _ _ _ (uart_data_available_run E h));
    destruct (s32 (Z.land (u32 (dev_read E h MU_LSR)) (Z.shiftl 1 0)) =? 0)
      eqn:Ha.
  - (* no data and no rounds left *)
    exists (s32 (0 - 1)), [MMIO_read MU_LSR (u32 (dev_read E h MU_LSR))].
    repeat split; try reflexivity; [repeat constructor |].
    right. exists false. split; [| discriminate].
    cbn. unfold lsr_ready. rewrite Ha. reflexivity.
  - (* data, with the count already at zero *)
    exists 0, [MMIO_read MU_LSR (u32 (dev_read E h MU_LSR))].
    repeat split; try reflexivity; [repeat constructor |].
    right. exists true. split; [| lia].
    cbn. unfold lsr_ready. rewrite Ha. reflexivity.
  - (* no data, rounds left: sleep and poll again *)
    replace (Z.of_nat (S T) >? 0) with true by (symmetry; apply Z.gtb_lt; lia).
    replace (s32 (Z.of_nat (S T) - 1)) with (Z.of_nat T)
      by (rewrite s32_small; lia).
    unfold bind at 1. unfold udelay, emit.
    destruct (IH fuel ((h ++ [MMIO_read MU_LSR (u32 (dev_read E h MU_LSR))])
                          ++ [Udelay 1000]) ltac:(lia) ltac:(lia))
      as (r & t & Hrun & Hsp & Hrx & Hw & Hcases).
    exists r, (MMIO_read MU_LSR (u32 (dev_read E h MU_LSR)) :: Udelay 1000 :: t).
    rewrite Hrun, <- !app_assoc. split; [reflexivity |].
    split; [exact Hsp |]. split; [exact Hrx |].
    split; [repeat constructor; exact Hw |].
    assert (Hp : polls (MMIO_read MU_LSR (u32 (dev_read E h MU_LSR))
                          :: Udelay 1000 :: t) = false :: polls t).
    { cbn. unfold lsr_ready. rewrite Ha. reflexivity. }
    rewrite Hp.
    destruct Hcases as [(k & Hk & Hpk & Hr) | (b & Hpb & Hr)].
    + left. exists (S k). split; [lia |]. rewrite Hpk. split; [reflexivity |].
      rewrite Hr. f_equal.
    + right. exists b. rewrite Hpb. split; [reflexivity | exact Hr].
  - (* data at this poll *)
    exists (Z.of_nat (S T)), [MMIO_read MU_LSR (u32 (dev_read E h MU_LSR))].
    repeat split; try reflexivity; [repeat constructor |].
    left. exists O. split; [lia |]. split; [| f_equal; lia].
    cbn. unfold lsr_ready. rewrite Ha. reflexivity.
Qed.

Lemma firstn_repeat_more {A} (x : A) n l :
  firstn n (repeat x n ++ l) = repeat x n.
Proof.
  rewrite firstn_app, repeat_length, Nat.sub_diag, firstn_O, app_nil_r.
  rewrite <- (repeat_length x n) at 1. apply firstn_all.
Qed.

Lemma no_true_in_false n : ~ In true (repeat false n).
Proof. intros H. apply repeat_spec in H. discriminate. Qed.

(** What the first-byte wait does on every line.  A read entered with the
    cursor at 0 polls the status register with one millisecond of sleep
    between polls.  Either data shows at one of the first 1000 polls, the
    wait stops there and the handler goes on to the drain loop; or it does
    not, the wait polls a 1001st time and the handler returns 0 whatever
    that last poll says. *)
Lemma first_byte_timeout E fuel ucap count h :
  (1000 < fuel)%nat ->
  exists timeout t,
    first_byte_wait E fuel 1000 h = Done timeout (h ++ t) /\
    spaced_polls t = true /\
    (List.length (polls t) <= 1001)%nat /\
    ((exists k, (k < 1000)%nat /\ polls t = repeat false k ++ [true])
     \/ (exists b, polls t = repeat false 1000 ++ [b])) /\
    (timeout <= 0 <-> firstn 1000 (polls t) = repeat false 1000) /\
    (firstn 1000 (polls t) = repeat false 1000 ->
     uart_proc_read E fuel ucap count 0 h
     = Done {| retval := 0; to_user := []; pos := 0 |} (h ++ t)) /\
    (In true (firstn 1000 (polls t)) ->
     uart_proc_read E fuel ucap count 0 h
     = (st <- rx_drain E fuel count rx_start ;; rx_deliver ucap 0 st) (h ++ t)).
Proof.
  intros Hfuel.
  destruct (first_byte_wait_run E 1000 fuel h Hfuel ltac:(lia))
    as (r & t & Hrun & Hsp & _ & _ & Hcases).
  change (Z.of_nat 1000) with 1000 in Hrun.
  exists r, t. split; [exact Hrun |]. split; [exact Hsp |].
  split.
  { destruct Hcases as [(k & Hk & Hp & _) | (b & Hp & _)];
      rewrite Hp, length_app, repeat_length; cbn [List.length]; lia. }
  split.
  { destruct Hcases as [(k & Hk & Hp & _) | (b & Hp & _)];
      [left; exists k; split; assumption | right; exists b; exact Hp]. }
  assert (Hread : uart_proc_read E fuel ucap count 0 h
                  = if r <=? 0
                    then Done {| retval := 0; to_user := []; pos := 0 |} (h ++ t)
                    else (st <- rx_drain E fuel count rx_start ;;
                          rx_deliver ucap 0 st) (h ++ t)).
  { unfold uart_proc_read. cbn [Z.gtb Z.compare].
    rewrite (bind_done _ _ _ _ _ Hrun). destruct (r <=? 0); reflexivity. }
  destruct Hcases as [(k & Hk & Hp & Hr) | (b & Hp & Hr)].
  - (* data at poll k < 1000 *)
    assert (Hin : In true (firstn 1000 (polls t))).
    { rewrite Hp, firstn_all2
        by (rewrite length_app, repeat_length; simpl; lia).
      apply in_or_app. right. left. reflexivity. }
    assert (Hne : firstn 1000 (polls t) <> repeat false 1000).
    { intros Heq. rewrite Heq in Hin. exact (no_true_in_false _ Hin). }
    split; [split; [lia | intros Heq; contradiction] |].
    split; [intros Heq; contradiction |].
    intros _. rewrite Hread.
    replace (r <=? 0) with false by (symmetry; apply Z.leb_gt; lia).
    reflexivity.
  - (* nothing at the first 1000 polls *)
    assert (Heq : firstn 1000 (polls t) = repeat false 1000).
    { rewrite Hp. apply firstn_repeat_more. }
    split; [split; [intros _; exact Heq | intros _; exact Hr] |].
    split.
    + intros _. rewrite Hread.
      replace (r <=? 0) with true by (symmetry; apply Z.leb_le; lia).
      reflexivity.
    + intros Hin. rewrite Heq in Hin. destruct (no_true_in_false _ Hin).
Qed.

(** *** The drain loops *)

Lemma reads_only_app t1 t2 :
  reads_only t1 -> reads_only t2 -> reads_only (t1 ++ t2).
Proof. unfold reads_only. intros H1 H2. apply Forall_app. split; assumption. Qed.

Lemma poke_length buf n c : List.length (poke buf n c) = List.length buf.
Proof.
  revert n. induction buf as [| x buf IH]; intros n; [reflexivity |].
  destruct n as [| n]; simpl; [reflexivity | rewrite IH; reflexivity].
Qed.

Lemma poke_firstn buf n c :
  (n < List.length buf)%nat ->
  firstn (S n) (poke buf n c) = firstn n buf ++ [Some c].
Proof.
  revert n. induction buf as [| x buf IH]; intros n Hn; [simpl in Hn; lia |].
  destruct n as [| n]; [reflexivity |].
  simpl in Hn. cbn [poke]. rewrite !firstn_cons, IH by lia. reflexivity.
Qed.

Lemma store_run buf idx c h :
  0 <= idx < Z.of_nat (List.length buf) ->
  store buf idx c h = Done (poke buf (Z.to_nat idx) c) h.
Proof.
  intros Hidx. unfold store.
  replace (0 <=? idx) with true by (symmetry; apply Z.leb_le; lia).
  replace (idx <? Z.of_nat (List.length buf)) with true
    by (symmetry; apply Z.ltb_lt; lia).
  reflexivity.
Qed.

Lemma uart_receive_char_run E h :
  exists c t,
    uart_receive_char E h = Done c (h ++ t) /\
    reads_only t /\
    rx_bytes t = (if Byte.eqb c NUL then [] else [c]).
Proof.
  unfold uart_receive_char.
  rewrite (bind_done _ _ _ _ _ (uart_data_available_run E h)).
  destruct (_ =? 0).
  - exists NUL. eexists. split; [reflexivity |].
    split; [repeat constructor | reflexivity].
  - unfold bind, readl, ret. cbv zeta. eexists. eexists.
    rewrite <- app_assoc. split; [reflexivity |].
    split; [repeat constructor |].
    unfold rx_bytes. cbn [flat_map app]. apply app_nil_r.
Qed.

Lemma quiet_check_run E (asked : bool) h :
  exists q t,
    (if asked then a <- uart_data_available E ;; ret (a =? 0) else ret false) h
    = Done q (h ++ t) /\
    reads_only t /\ rx_bytes t = [].
Proof.
  destruct asked.
  - rewrite (bind_done _ _ _ _ _ (uart_data_available_run E h)).
    eexists. eexists. split; [reflexivity |].
    split; [repeat constructor | reflexivity].
  - exists false, []. rewrite app_nil_r.
    split; [reflexivity |]. split; [constructor | reflexivity].
Qed.

Lemma rx_room_bounds count got st :
  rx_inv count got st -> rx_room count st = true ->
  i st < KBUF_SIZE - 1 /\ i st < count.
Proof.
  intros (Hi & Hle & _) Hroom. unfold rx_room in Hroom.
  apply andb_prop in Hroom. destruct Hroom as [H1 H2].
  apply Z.ltb_lt in H1, H2.
  rewrite size_t_small in H1, H2
    by (unfold KBUF_SIZE in Hle; lia).
  split; assumption.
Qed.

(** Taking one more non-NUL character keeps the invariant. *)
Lemma rx_inv_push count got st c :
  rx_inv count got st -> rx_room count st = true -> Byte.eqb c NUL = false ->
  rx_inv count (got ++ [c])
         {| kbuf := poke (kbuf st) (Z.to_nat (i st)) c;
            i := s32 (i st + 1);
            consecutive_no_data := 0 |}.
Proof.
  intros Hinv Hroom Hc.
  destruct (rx_room_bounds _ _ _ Hinv Hroom) as [H255 Hcount].
  destruct Hinv as (Hi & Hle & Hlen & Hpre & Hnul & Hq).
  unfold rx_inv. unfold KBUF_SIZE in *. cbn [kbuf i consecutive_no_data].
  rewrite s32_small by lia. rewrite length_app. cbn [List.length].
  split; [lia |]. split; [lia |].
  split; [rewrite poke_length; exact Hlen |].
  split.
  - rewrite Hi, Nat2Z.id, Nat.add_1_r, poke_firstn by lia.
    rewrite Hpre, map_app. reflexivity.
  - split; [| unfold MAX_CONSECUTIVE_NO_DATA; lia].
    intros Hin. apply in_app_or in Hin. destruct Hin as [Hin | [Heq | []]].
    + exact (Hnul Hin).
    + subst c. discriminate.
Qed.

Lemma rx_burst_post E fuel count :
  forall st got h,
    rx_inv count got st ->
    post (rx_burst E fuel count st h)
         (fun st' h' =>
            exists t, h' = h ++ t /\ reads_only t /\
                      rx_inv count (got ++ rx_bytes t) st' /\
                      consecutive_no_data st' <= consecutive_no_data st /\
                      (1 <= count_reads MU_LSR t)%nat).
Proof.
  induction fuel as [| fuel IH]; intros st got h Hinv; [exact I |].
  cbn [rx_burst].
  rewrite (bind_done _ _ _ _ _ (uart_data_available_run E h)).
  destruct (negb (_ =? 0) && rx_room count st) eqn:Hgo.
  2:{ cbn. eexists. split; [reflexivity |].
      split; [repeat constructor |].
      cbn. rewrite app_nil_r. split; [exact Hinv | split; lia]. }
  apply andb_prop in Hgo. destruct Hgo as [_ Hroom].
  assert (Hcnt : forall t1 t,
             (1 <= count_reads MU_LSR
                     ((MMIO_read MU_LSR (u32 (dev_read E h MU_LSR)) :: t1)
                        ++ t))%nat)
    by (intros; cbn; lia).
  destruct (uart_receive_char_run
              E (h ++ [MMIO_read MU_LSR (u32 (dev_read E h MU_LSR))]))
    as (c & t1 & Hrc & Hro1 & Hb1).
  rewrite (bind_done _ _ _ _ _ Hrc).
  destruct (Byte.eqb c NUL) eqn:Hc; cbn [negb].
  - (* a NUL, or nothing: dropped *)
    unfold bind at 1. unfold ret at 1.
    eapply post_weaken; [apply (IH st got _ Hinv) |].
    intros st' h' (t & -> & Hro & Hinv' & Hq & _).
    exists ((MMIO_read MU_LSR (u32 (dev_read E h MU_LSR)) :: t1) ++ t).
    split; [rewrite <- !app_assoc; reflexivity |].
    split; [apply reads_only_app;
            [constructor; [reflexivity | exact Hro1] | exact Hro] |].
    split; [| split; [exact Hq | apply Hcnt]].
    rewrite rx_bytes_app. cbn [rx_bytes flat_map app].
    fold (rx_bytes t1). rewrite Hb1. exact Hinv'.
  - (* a character: stored *)
    destruct (rx_room_bounds _ _ _ Hinv Hroom) as [H255 Hcount].
    assert (Hidx : 0 <= i st < Z.of_nat (List.length (kbuf st))).
    { destruct Hinv as (Hi & _ & Hlen & _). rewrite Hlen.
      unfold KBUF_SIZE in *. lia. }
    match goal with
    | |- post (bind ?m _ ?h1) _ =>
        assert (Hst : m h1
                      = Done {| kbuf := poke (kbuf st) (Z.to_nat (i st)) c;
                                i := s32 (i st + 1);
                                consecutive_no_data := 0 |} h1)
          by (rewrite (bind_done _ _ _ _ _
                         (store_run (kbuf st) (i st) c _ Hidx));
              reflexivity)
    end.
    rewrite (bind_done _ _ _ _ _ Hst).
    eapply post_weaken;
      [apply (IH _ (got ++ [c]) _ (rx_inv_push _ _ _ c Hinv Hroom Hc)) |].
    intros st' h' (t & -> & Hro & Hinv' & Hq & _).
    exists ((MMIO_read MU_LSR (u32 (dev_read E h MU_LSR)) :: t1) ++ t).
    split; [rewrite <- !app_assoc; reflexivity |].
    split; [apply reads_only_app;
            [constructor; [reflexivity | exact Hro1] | exact Hro] |].
    split; [| split; [| apply Hcnt]].
    + rewrite rx_bytes_app. cbn [rx_bytes flat_map app].
      fold (rx_bytes t1). rewrite Hb1, app_assoc. exact Hinv'.
    + cbn [consecutive_no_data] in Hq.
      destruct Hinv as (_ & _ & _ & _ & _ & Hq0). lia.
Qed.

Lemma rx_inv_tick count got st :
  rx_inv count got st ->
  consecutive_no_data st < MAX_CONSECUTIVE_NO_DATA ->
  rx_inv count got
         {| kbuf := kbuf st; i := i st;
            consecutive_no_data := s32 (consecutive_no_data st + 1) |}
  /\ s32 (consecutive_no_data st + 1) = consecutive_no_data st + 1.
Proof.
  intros (Hi & Hle & Hlen & Hpre & Hnul & Hq) Hlt.
  unfold MAX_CONSECUTIVE_NO_DATA in *.
  assert (Hs : s32 (consecutive_no_data st + 1) = consecutive_no_data st + 1)
    by (apply s32_small; lia).
  split; [| exact Hs].
  unfold rx_inv. cbn [kbuf i consecutive_no_data]. rewrite Hs.
  repeat split; try assumption; unfold MAX_CONSECUTIVE_NO_DATA; lia.
Qed.

Lemma rx_drain_post E fuel count :
  forall st got h,
    rx_inv count got st ->
    consecutive_no_data st < MAX_CONSECUTIVE_NO_DATA ->
    post (rx_drain E fuel count st h)
         (fun st' h' =>
            exists t, h' = h ++ t /\ reads_only t /\
                      rx_inv count (got ++ rx_bytes t) st').
Proof.
  induction fuel as [| fuel IH]; intros st got h Hinv Hlt; [exact I |].
  cbn [rx_drain].
  destruct (rx_room count st).
  2:{ cbn. exists []. rewrite !app_nil_r.
      split; [reflexivity |]. split; [constructor | exact Hinv]. }
  (* after a tick: leave at the threshold, go round again below it *)
  assert (Htick : forall st1 got1 h1,
             rx_inv count got1 st1 ->
             consecutive_no_data st1 < MAX_CONSECUTIVE_NO_DATA ->
             post ((st2 <- rx_idle_tick st1 ;;
                    if consecutive_no_data st2 >=? MAX_CONSECUTIVE_NO_DATA
                    then ret st2 else rx_drain E fuel count st2) h1)
                  (fun st' h' =>
                     exists t, h' = h1 ++ t /\ reads_only t /\
                               rx_inv count (got1 ++ rx_bytes t) st')).
  { intros st1 got1 h1 Hinv1 Hlt1.
    destruct (rx_inv_tick _ _ _ Hinv1 Hlt1) as [Hinv2 Hs].
    unfold rx_idle_tick, bind, udelay, emit, ret.
    cbn [consecutive_no_data].
    destruct (s32 (consecutive_no_data st1 + 1) >=? MAX_CONSECUTIVE_NO_DATA)
      eqn:Hge.
    - cbn. exists [Udelay 1000]. split; [reflexivity |].
      split; [repeat constructor |].
      cbn. rewrite app_nil_r. exact Hinv2.
    - eapply post_weaken; [apply (IH _ got1 _ Hinv2) |].
      + cbn [consecutive_no_data].
        rewrite Z.geb_leb in Hge. apply Z.leb_gt in Hge. exact Hge.
      + intros st' h' (t & -> & Hro & Hinv').
        exists (Udelay 1000 :: t). rewrite <- app_assoc.
        split; [reflexivity |].
        split; [constructor; [reflexivity | exact Hro] | exact Hinv']. }
  apply post_bind.
  eapply post_weaken; [apply (rx_burst_post E fuel count st got h Hinv) |].
  intros st1 h1 (t1 & -> & Hro1 & Hinv1 & Hq1 & _).
  assert (Hlt1 : consecutive_no_data st1 < MAX_CONSECUTIVE_NO_DATA) by lia.
  destruct (quiet_check_run E (i st1 >? 0) (h ++ t1))
    as (q & t2 & Hrun2 & Hro2 & Hb2).
  rewrite (bind_done _ _ _ _ _ Hrun2).
  assert (Hinv2 : rx_inv count (got ++ rx_bytes (t1 ++ t2)) st1).
  { rewrite rx_bytes_app, Hb2, app_nil_r. exact Hinv1. }
  destruct q.
  { eapply post_weaken; [apply (Htick st1 _ _ Hinv2 Hlt1) |].
    intros st' h' (t & -> & Hro & Hinv').
    exists ((t1 ++ t2) ++ t). rewrite <- !app_assoc.
    split; [reflexivity |].
    split; [rewrite app_assoc; repeat apply reads_only_app; assumption |].
    rewrite app_assoc, rx_bytes_app, app_assoc. exact Hinv'. }
  destruct (quiet_check_run E (i st1 =? 0) ((h ++ t1) ++ t2))
    as (q0 & t3 & Hrun3 & Hro3 & Hb3).
  rewrite (bind_done _ _ _ _ _ Hrun3).
  assert (Hinv3 : rx_inv count (got ++ rx_bytes ((t1 ++ t2) ++ t3)) st1).
  { rewrite rx_bytes_app, Hb3, app_nil_r. exact Hinv2. }
  assert (Hro123 : reads_only ((t1 ++ t2) ++ t3))
    by (repeat apply reads_only_app; assumption).
  assert (Hfin : forall st' h',
             (exists t, h' = (((h ++ t1) ++ t2) ++ t3) ++ t /\ reads_only t /\
                        rx_inv count
                          ((got ++ rx_bytes ((t1 ++ t2) ++ t3)) ++ rx_bytes t)
                          st') ->
             exists t, h' = h ++ t /\ reads_only t /\
                       rx_inv count (got ++ rx_bytes t) st').
  { intros st' h' (t & -> & Hro & Hinv').
    exists (((t1 ++ t2) ++ t3) ++ t). rewrite <- !app_assoc.
    split; [reflexivity |].
    split; [rewrite !app_assoc; apply reads_only_app; assumption |].
    rewrite !app_assoc, rx_bytes_app, app_assoc.
    rewrite <- !app_assoc in Hinv'. rewrite <- !app_assoc. exact Hinv'. }
  destruct q0.
  - eapply post_weaken; [apply (Htick st1 _ _ Hinv3 Hlt1) | exact Hfin].
  - eapply post_weaken; [apply (IH st1 _ _ Hinv3 Hlt1) | exact Hfin].
Qed.

(** *** Handing the bytes to the caller *)

Lemma peek_prefix buf bs :
  firstn (List.length bs) buf = map Some bs ->
  peek buf (List.length bs) = Some bs.
Proof.
  revert buf. induction bs as [| b bs IH]; intros buf H; [reflexivity |].
  destruct buf as [| x buf]; [discriminate |].
  cbn in H. inversion H; subst. cbn. rewrite (IH _ H2). reflexivity.
Qed.

Lemma until_nul_clean bs : ~ In NUL bs -> until_nul bs = bs.
Proof.
  induction bs as [| b bs IH]; intros H; [reflexivity |].
  cbn. destruct (Byte.eqb b NUL) eqn:Hb.
  - apply Byte.byte_dec_bl in Hb. subst b. destruct H. left. reflexivity.
  - rewrite IH; [reflexivity |]. intros Hin. apply H. right. exact Hin.
Qed.

Lemma firstn_poke buf n c : firstn n (poke buf n c) = firstn n buf.
Proof.
  revert n. induction buf as [| x buf IH]; intros n; [reflexivity |].
  destruct n as [| n]; [reflexivity |].
  cbn [poke]. rewrite !firstn_cons, IH. reflexivity.
Qed.

Lemma rx_deliver_run count got st ucap ppos h :
  rx_inv count got st ->
  rx_deliver ucap ppos st h
  = Done (read_verdict ucap ppos got)
         (h ++ if (ucap <? List.length got)%nat then [] else rx_log got).
Proof.
  intros (Hi & Hle & Hlen & Hpre & Hnul & Hq).
  unfold rx_deliver, KBUF_SIZE in *.
  destruct got as [| b got'].
  { cbn [List.length Z.of_nat] in Hi. rewrite Hi. cbn.
    destruct (ucap <? 0)%nat; rewrite app_nil_r; reflexivity. }
  assert (Hpos : 0 < i st <= 255) by (cbn [List.length] in Hi; lia).
  set (got := b :: got') in *.
  replace (i st =? 0) with false by (symmetry; apply Z.eqb_neq; lia).
  rewrite (bind_done _ _ _ _ _
             (store_run (kbuf st) (i st) NUL h ltac:(lia))).
  rewrite size_t_small by lia.
  assert (Hn : Z.to_nat (i st) = List.length got) by lia.
  rewrite Hn.
  assert (Hlt : (List.length got < List.length (kbuf st))%nat) by lia.
  assert (Hpeek : peek (poke (kbuf st) (List.length got) NUL)
                       (List.length got) = Some got).
  { apply peek_prefix. rewrite firstn_poke. exact Hpre. }
  unfold bind at 1. rewrite Hpeek. cbn [lift ret].
  unfold copy_to_user. rewrite Hn.
  assert (Hstr : c_str (poke (kbuf st) (List.length got) NUL) = Some got).
  { rewrite <- (firstn_skipn (S (List.length got))
                  (poke (kbuf st) (List.length got) NUL)).
    rewrite poke_firstn, Hpre, <- app_assoc by exact Hlt.
    cbn [app]. rewrite c_str_prefix, until_nul_clean by exact Hnul.
    reflexivity. }
  unfold read_verdict. fold got.
  destruct (Nat.ltb_spec ucap (List.length got)) as [Hfail | Hok].
  - replace (Z.of_nat (List.length got - ucap) =? 0) with false
      by (symmetry; apply Z.eqb_neq; lia).
    cbn [negb]. unfold ret. rewrite app_nil_r.
    replace (Nat.min (List.length got) ucap) with ucap by lia.
    reflexivity.
  - replace (List.length got - ucap)%nat with O by lia.
    cbn [Z.of_nat Z.eqb negb].
    unfold bind at 1. rewrite Hstr. cbn [lift ret].
    unfold bind, pr_info, emit, ret.
    replace (Nat.min (List.length got) ucap) with (List.length got) by lia.
    rewrite firstn_all, Hi. reflexivity.
Qed.

Lemma first_byte_wait_post E fuel :
  forall T h,
    post (first_byte_wait E fuel T h)
         (fun _ h' => exists t, h' = h ++ t /\ reads_only t /\ rx_bytes t = []).
Proof.
  induction fuel as [| fuel IH]; intros T h; [exact I |].
  cbn [first_byte_wait].
  rewrite (bind_done _ _ _ _ _ (uart_data_available_run E h)).
  destruct (_ =? 0).
  - cbv zeta. destruct (T >? 0).
    + unfold bind, udelay, emit.
      eapply post_weaken; [apply IH |].
      intros r h' (t & -> & Hro & Hb).
      eexists. rewrite <- !app_assoc. split; [reflexivity |].
      split; [repeat constructor; exact Hro | exact Hb].
    + cbn. eexists. split; [reflexivity |].
      split; [repeat constructor | reflexivity].
  - cbn. eexists. split; [reflexivity |].
    split; [repeat constructor | reflexivity].
Qed.

Lemma rx_start_inv count : 0 <= count -> rx_inv count [] rx_start.
Proof.
  intros Hc. unfold rx_inv, rx_start, fresh_kbuf, KBUF_SIZE,
    MAX_CONSECUTIVE_NO_DATA.
  cbn [kbuf i consecutive_no_data List.length].
  rewrite repeat_length.
  repeat split; try reflexivity; try lia. intros [].
Qed.

Lemma rx_log_quiet got : reads_only (rx_log got) /\ rx_bytes (rx_log got) = [].
Proof. destruct got; split; try reflexivity; repeat constructor. Qed.

(** Past the gate, a read stores to no register, collects at most
    [min(255, count)] non-NUL characters and hands back what
    [read_verdict] says of them. *)
Lemma uart_proc_read_post E fuel ucap count ppos h :
  0 <= count -> ppos <= 0 ->
  post (uart_proc_read E fuel ucap count ppos h)
       (fun r h' =>
          exists t, h' = h ++ t /\ reads_only t /\
                    Z.of_nat (List.length (rx_bytes t)) <= Z.min 255 count /\
                    ~ In NUL (rx_bytes t) /\
                    r = read_verdict ucap ppos (rx_bytes t)).
Proof.
  intros Hc Hp. unfold uart_proc_read.
  replace (ppos >? 0) with false
    by (symmetry; rewrite Z.gtb_ltb; apply Z.ltb_ge; lia).
  apply post_bind.
  eapply post_weaken; [apply first_byte_wait_post |].
  intros timeout h1 (t1 & -> & Hro1 & Hb1).
  destruct (timeout <=? 0).
  { cbn. exists t1. rewrite Hb1. cbn.
    repeat split; [exact Hro1 | lia | intros []]. }
  apply post_bind.
  eapply post_weaken;
    [apply (rx_drain_post E fuel count rx_start [] _ (rx_start_inv count Hc));
     reflexivity |].
  intros st h2 (t2 & -> & Hro2 & Hinv). cbn [app] in Hinv.
  rewrite (rx_deliver_run count _ st ucap ppos _ Hinv).
  cbn [post].
  destruct (rx_log_quiet (rx_bytes t2)) as [Hrol Hbl].
  exists (t1 ++ t2 ++ if (ucap <? List.length (rx_bytes t2))%nat
                      then [] else rx_log (rx_bytes t2)).
  rewrite <- !app_assoc. split; [reflexivity |].
  assert (Hb : rx_bytes (t1 ++ t2 ++
                         (if (ucap <? List.length (rx_bytes t2))%nat
                          then [] else rx_log (rx_bytes t2)))
               = rx_bytes t2).
  { rewrite !rx_bytes_app, Hb1.
    destruct (ucap <? _)%nat; [| rewrite Hbl]; apply app_nil_r. }
  rewrite Hb.
  destruct Hinv as (Hi & Hle & _ & _ & Hnul & _). unfold KBUF_SIZE in Hle.
  split; [| split; [lia | split; [exact Hnul | reflexivity]]].
  repeat apply reads_only_app; try assumption.
  destruct (ucap <? _)%nat; [constructor | exact Hrol].
Qed.

Lemma uart_proc_read_gate E fuel ucap count ppos h :
  0 < ppos ->
  uart_proc_read E fuel ucap count ppos h
  = Done {| retval := 0; to_user := []; pos := ppos |} h.
Proof.
  intros Hp. unfold uart_proc_read.
  replace (ppos >? 0) with true by (symmetry; apply Z.gtb_lt; exact Hp).
  reflexivity.
Qed.

(** *** The read returns on a line that falls silent *)

Lemma count_reads_app r h t :
  count_reads r (h ++ t) = (count_reads r h + count_reads r t)%nat.
Proof. unfold count_reads. rewrite filter_app, length_app. reflexivity. Qed.

Section Silence.

Variable E : env.
Variable N : nat.
Hypothesis silent :
  forall h, (N <= count_reads MU_LSR h)%nat -> rx_ready E h = false.

Lemma left_to_poll_app h t : (left_to_poll N (h ++ t) <= left_to_poll N h)%nat.
Proof. unfold left_to_poll. rewrite count_reads_app. lia. Qed.

Lemma left_to_poll_polled h t :
  (1 <= count_reads MU_LSR t)%nat -> (1 <= left_to_poll N h)%nat ->
  (left_to_poll N (h ++ t) <= left_to_poll N h - 1)%nat.
Proof. unfold left_to_poll. rewrite count_reads_app. lia. Qed.

Lemma rx_burst_fuel count :
  forall m fuel st h,
    (left_to_poll N h <= m)%nat -> (m < fuel)%nat ->
    rx_burst E fuel count st h <> OutOfFuel.
Proof.
  induction m as [| m IH]; intros fuel st h Hm Hfuel;
    (destruct fuel as [| fuel]; [lia |]);
    cbn [rx_burst];
    rewrite (bind_done _ _ _ _ _ (uart_data_available_run E h));
    change (negb (s32 (Z.land (u32 (dev_read E h MU_LSR)) (Z.shiftl 1 0)) =? 0))
      with (rx_ready E h).
  - rewrite silent by (unfold left_to_poll in Hm; lia). discriminate.
  - destruct (rx_ready E h) eqn:Hr; [| discriminate].
    assert (HL : (1 <= left_to_poll N h)%nat).
    { unfold left_to_poll.
      destruct (Nat.le_gt_cases N (count_reads MU_LSR h)) as [Hle | Hgt];
        [rewrite silent in Hr by exact Hle; discriminate | lia]. }
    destruct (rx_room count st); [| discriminate]. cbn [andb].
    destruct (uart_receive_char_run
                E (h ++ [MMIO_read MU_LSR (u32 (dev_read E h MU_LSR))]))
      as (c & t1 & Hrc & _ & _).
    rewrite (bind_done _ _ _ _ _ Hrc).
    assert (Hnext : forall st',
               rx_burst E fuel count st'
                 ((h ++ [MMIO_read MU_LSR (u32 (dev_read E h MU_LSR))]) ++ t1)
               <> OutOfFuel).
    { intros st'. apply IH; [| lia].
      rewrite <- app_assoc.
      pose proof (left_to_poll_polled h
                    ([MMIO_read MU_LSR (u32 (dev_read E h MU_LSR))] ++ t1)
                    ltac:(cbn; lia) HL).
      lia. }
    destruct (negb (Byte.eqb c NUL)).
    + unfold bind at 1. unfold bind at 1. unfold store.
      destruct ((0 <=? i st) && (i st <? Z.of_nat (List.length (kbuf st))));
        [apply Hnext | discriminate].
    + unfold bind at 1. unfold ret at 1. apply Hnext.
Qed.

Lemma rx_burst_silent count fuel st h :
  rx_ready E h = false ->
  rx_burst E (S fuel) count st h
  = Done st (h ++ [MMIO_read MU_LSR (u32 (dev_read E h MU_LSR))]).
Proof.
  intros Hr. cbn [rx_burst].
  rewrite (bind_done _ _ _ _ _ (uart_data_available_run E h)).
  change (negb (s32 (Z.land (u32 (dev_read E h MU_LSR)) (Z.shiftl 1 0)) =? 0))
    with (rx_ready E h).
  rewrite Hr. reflexivity.
Qed.

Lemma quiet_check_silent h :
  rx_ready E h = false ->
  (a <- uart_data_available E ;; ret (a =? 0)) h
  = Done true (h ++ [MMIO_read MU_LSR (u32 (dev_read E h MU_LSR))]).
Proof.
  intros Hr.
  rewrite (bind_done _ _ _ _ _ (uart_data_available_run E h)).
  unfold rx_ready, lsr_ready in Hr. apply negb_false_iff in Hr.
  unfold ret. rewrite Hr. reflexivity.
Qed.

Lemma rx_drain_ends count :
  forall m fuel st got h,
    rx_inv count got st ->
    consecutive_no_data st < MAX_CONSECUTIVE_NO_DATA ->
    (301 * left_to_poll N h + ticks_left st <= m)%nat -> (m < fuel)%nat ->
    exists st' h', rx_drain E fuel count st h = Done st' h'.
Proof.
  induction m as [| m IH]; intros fuel st got h Hinv Hlt Hm Hfuel.
  { unfold ticks_left, MAX_CONSECUTIVE_NO_DATA in *. lia. }
  destruct fuel as [| fuel]; [lia |].
  cbn [rx_drain].
  destruct (rx_room count st); [| eexists; eexists; reflexivity].
  (* after a tick *)
  assert (Htick : forall st1 got1 h1,
             rx_inv count got1 st1 ->
             consecutive_no_data st1 < MAX_CONSECUTIVE_NO_DATA ->
             (301 * left_to_poll N h1 + ticks_left st1 <= S m)%nat ->
             exists st' h',
               (st2 <- rx_idle_tick st1 ;;
                if consecutive_no_data st2 >=? MAX_CONSECUTIVE_NO_DATA
                then ret st2 else rx_drain E fuel count st2) h1
               = Done st' h').
  { intros st1 got1 h1 Hinv1 Hlt1 Hm1.
    destruct (rx_inv_tick _ _ _ Hinv1 Hlt1) as [Hinv2 Hs].
    unfold rx_idle_tick, bind, udelay, emit, ret.
    cbn [consecutive_no_data].
    destruct (s32 (consecutive_no_data st1 + 1) >=? MAX_CONSECUTIVE_NO_DATA)
      eqn:Hge; [eexists; eexists; reflexivity |].
    rewrite Z.geb_leb in Hge. apply Z.leb_gt in Hge.
    apply (IH fuel _ got1 _ Hinv2); [exact Hge | | lia].
    pose proof (left_to_poll_app h1 [Udelay 1000]).
    destruct Hinv1 as (_ & _ & _ & _ & _ & Hq1).
    unfold ticks_left, MAX_CONSECUTIVE_NO_DATA in *.
    cbn [consecutive_no_data]. rewrite Hs. lia. }
  pose proof Hinv as (Hi & _ & _ & _ & _ & Hq).
  destruct (Nat.eq_dec (left_to_poll N h) 0) as [HL0 | HL1].
  - (* the line is already silent: one idle round *)
    assert (Hs0 : rx_ready E h = false)
      by (apply silent; unfold left_to_poll in HL0; lia).
    destruct fuel as [| fuel]; [lia |].
    rewrite (bind_done _ _ _ _ _ (rx_burst_silent count fuel st h Hs0)).
    set (h1 := h ++ [MMIO_read MU_LSR (u32 (dev_read E h MU_LSR))]).
    assert (Hs1 : rx_ready E h1 = false).
    { apply silent. unfold h1. rewrite count_reads_app.
      unfold left_to_poll in HL0. lia. }
    assert (HL1 : (left_to_poll N (h1 ++ [MMIO_read MU_LSR
                                          (u32 (dev_read E h1 MU_LSR))])
                   = 0)%nat).
    { pose proof (left_to_poll_app h1
                    [MMIO_read MU_LSR (u32 (dev_read E h1 MU_LSR))]).
      pose proof (left_to_poll_app h
                    [MMIO_read MU_LSR (u32 (dev_read E h MU_LSR))]).
      fold h1 in H0. lia. }
    destruct (i st >? 0) eqn:Hpos.
    + rewrite (bind_done _ _ _ _ _ (quiet_check_silent h1 Hs1)).
      apply (Htick st got _ Hinv Hlt). rewrite HL1. lia.
    + unfold bind at 1. unfold ret at 1.
      replace (i st =? 0) with true
        by (symmetry; apply Z.eqb_eq; rewrite Z.gtb_ltb in Hpos;
            apply Z.ltb_ge in Hpos; lia).
      rewrite (bind_done _ _ _ _ _ (quiet_check_silent h1 Hs1)).
      apply (Htick st got _ Hinv Hlt). rewrite HL1. lia.
  - (* at least one poll brings the silence nearer *)
    pose proof (rx_burst_post E fuel count st got h Hinv) as Hpost.
    pose proof (rx_burst_fuel count (left_to_poll N h) fuel st h
                  (Nat.le_refl _)) as Hnf.
    assert (Hfl : (left_to_poll N h < fuel)%nat).
    { unfold ticks_left, MAX_CONSECUTIVE_NO_DATA in Hm. lia. }
    specialize (Hnf Hfl).
    destruct (rx_burst E fuel count st h) as [st1 h1 | |] eqn:Hb;
      [| contradiction | contradiction].
    cbn [post] in Hpost.
    destruct Hpost as (t1 & -> & _ & Hinv1 & Hq1 & Hp1).
    rewrite (bind_done _ _ _ _ _ Hb).
    assert (Hlt1 : consecutive_no_data st1 < MAX_CONSECUTIVE_NO_DATA) by lia.
    pose proof Hinv1 as (_ & _ & _ & _ & _ & Hq1').
    assert (Hmeasure : forall t,
               (301 * left_to_poll N ((h ++ t1) ++ t) + ticks_left st1 <= m)%nat).
    { intros t.
      pose proof (left_to_poll_app (h ++ t1) t).
      pose proof (left_to_poll_polled h t1 Hp1 ltac:(lia)).
      unfold ticks_left, MAX_CONSECUTIVE_NO_DATA in *. lia. }
    destruct (quiet_check_run E (i st1 >? 0) (h ++ t1))
      as (q & t2 & Hrun2 & _ & Hb2).
    rewrite (bind_done _ _ _ _ _ Hrun2).
    destruct q.
    { apply (Htick st1 _ _ Hinv1 Hlt1). specialize (Hmeasure t2). lia. }
    destruct (quiet_check_run E (i st1 =? 0) ((h ++ t1) ++ t2))
      as (q0 & t3 & Hrun3 & _ & Hb3).
    rewrite (bind_done _ _ _ _ _ Hrun3).
    specialize (Hmeasure (t2 ++ t3)). rewrite app_assoc in Hmeasure.
    destruct q0.
    + apply (Htick st1 _ _ Hinv1 Hlt1). lia.
    + apply (IH fuel st1 _ _ Hinv1 Hlt1); [exact Hmeasure | lia].
Qed.

End Silence.

Lemma uart_proc_read_ends E ucap count ppos h :
  rx_falls_silent E -> 0 <= count ->
  exists fuel r h', uart_proc_read E fuel ucap count ppos h = Done r h'.
Proof.
  intros [N Hsilent] Hc.
  destruct (Z.ltb_spec 0 ppos) as [Hp | Hp].
  { exists O. eexists. eexists. apply uart_proc_read_gate. exact Hp. }
  set (fuel := S (Nat.max 1000 (301 * N + 300))).
  exists fuel.
  destruct (first_byte_wait_run E 1000 fuel h ltac:(unfold fuel; lia)
              ltac:(lia))
    as (r & t & Hrun & _).
  change (Z.of_nat 1000) with 1000 in Hrun.
  unfold uart_proc_read.
  replace (ppos >? 0) with false
    by (symmetry; rewrite Z.gtb_ltb; apply Z.ltb_ge; lia).
  rewrite (bind_done _ _ _ _ _ Hrun).
  destruct (r <=? 0); [eexists; eexists; reflexivity |].
  destruct (rx_drain_ends E N Hsilent count (301 * N + 300) fuel rx_start []
              (h ++ t) (rx_start_inv count Hc) ltac:(reflexivity))
    as (st & h2 & Hd).
  { unfold left_to_poll, ticks_left. cbn. lia. }
  { unfold fuel. lia. }
  pose proof (rx_drain_post E fuel count rx_start [] (h ++ t)
                (rx_start_inv count Hc) ltac:(reflexivity)) as Hpost.
  rewrite Hd in Hpost. cbn [post] in Hpost.
  destruct Hpost as (t2 & _ & _ & Hinv).
  rewrite (bind_done _ _ _ _ _ Hd).
  rewrite (rx_deliver_run count _ st ucap ppos h2 Hinv).
  eexists. eexists. reflexivity.
Qed.

Lemma burst_env_silent rx stop : rx_falls_silent (burst_env rx stop).
Proof.
  exists stop. intros h Hh. unfold rx_ready, burst_env. cbn [dev_read].
  replace (count_reads MU_LSR h <? stop)%nat with false
    by (symmetry; apply Nat.ltb_ge; exact Hh).
  reflexivity.
Qed.

Lemma read_verdict_retval ucap ppos got :
  let r := read_verdict ucap ppos got in
  (retval r = 0 /\ got = [])
  \/ (retval r = - EFAULT /\ (ucap < List.length got)%nat /\ pos r = ppos
      /\ to_user r = firstn ucap got)
  \/ (retval r = Z.of_nat (List.length got) /\ 0 < retval r
      /\ (List.length got <= ucap)%nat /\ to_user r = got
      /\ pos r = s64 (ppos + Z.of_nat (List.length got))).
Proof.
  unfold read_verdict. destruct got as [| b got']; [left; split; reflexivity |].
  right. destruct (Nat.ltb_spec ucap (List.length (b :: got'))) as [Hf | Hok].
  - left. repeat split; try reflexivity. exact Hf.
  - right. cbn [retval to_user pos]. repeat split; try reflexivity.
    exact Hok.
Qed.

(** C4.  With caller capacity [count], the drain loop holds in [kbuf]
    exactly the non-NUL characters it took off the line, [i] of them, and
    never more than [min(255, count)]; so the index [i] it leaves for the
    terminator lies inside the 256-byte buffer and the handler never
    faults.  A read that gets past the gate hands back what those
    characters determine: when the caller's buffer can take them, it
    returns their number and exactly them, in order, without the
    terminator, and 0 when there are none.  The read does return on a line
    that falls silent. *)
Theorem read_collects_within_bounds E ucap count ppos h :
  0 <= count ->
  (forall fuel h1,
      post (rx_drain E fuel count rx_start h1)
           (fun st h' =>
              exists t, h' = h1 ++ t /\
                i st = Z.of_nat (List.length (rx_bytes t)) /\
                firstn (List.length (rx_bytes t)) (kbuf st)
                = map Some (rx_bytes t) /\
                0 <= i st <= Z.min 255 count /\
                i st < Z.of_nat (List.length (kbuf st)) /\
                List.length (kbuf st) = 256%nat)) /\
  (forall fuel,
      post (uart_proc_read E fuel ucap count ppos h)
           (fun r h' =>
              exists t, h' = h ++ t /\
                Z.of_nat (List.length (rx_bytes t)) <= Z.min 255 count /\
                retval r <= Z.min 255 count /\
                ~ In NUL (to_user r) /\
                (0 < retval r ->
                 retval r = Z.of_nat (List.length (rx_bytes t)) /\
                 to_user r = rx_bytes t) /\
                (ppos <= 0 -> r = read_verdict ucap ppos (rx_bytes t)) /\
                (ppos <= 0 -> (List.length (rx_bytes t) <= ucap)%nat ->
                 retval r = Z.of_nat (List.length (rx_bytes t)) /\
                 to_user r = rx_bytes t) /\
                (0 < ppos ->
                 t = [] /\
                 r = {| retval := 0; to_user := []; pos := ppos |}))) /\
  (rx_falls_silent E ->
   exists fuel r h', uart_proc_read E fuel ucap count ppos h = Done r h').
Proof.
  intros Hc. split; [| split].
  - intros fuel h1.
    eapply post_weaken;
      [apply (rx_drain_post E fuel count rx_start [] h1
                (rx_start_inv count Hc)); reflexivity |].
    intros st h' (t & -> & _ & Hi & Hle & Hlen & Hpre & _).
    cbn [app] in *. unfold KBUF_SIZE in *. rewrite Hlen.
    exists t. repeat split; try assumption; lia.
  - intros fuel.
    destruct (Z.ltb_spec 0 ppos) as [Hp | Hp].
    { rewrite uart_proc_read_gate by exact Hp. cbn.
      exists []. rewrite app_nil_r. cbn.
      repeat split; try lia; try (intros []). }
    eapply post_weaken; [apply uart_proc_read_post; assumption |].
    intros r h' (t & -> & _ & Hlen & Hnul & ->).
    exists t. split; [reflexivity |]. split; [exact Hlen |].
    destruct (read_verdict_retval ucap ppos (rx_bytes t))
      as [(Hr & Hg) | [(Hr & Hlt & _ & Hu) | (Hr & Hpos & _ & Hu & _)]];
      rewrite Hr.
    + split; [lia |]. split; [rewrite Hg; cbn; intros [] |].
      split; [lia |]. split; [reflexivity |].
      split; [| lia]. intros _ _. rewrite Hg. split; reflexivity.
    + split; [unfold EFAULT; lia |].
      split; [rewrite Hu; intros Hin; apply Hnul;
              rewrite <- (firstn_skipn ucap); apply in_or_app; left;
              exact Hin |].
      split; [unfold EFAULT; lia |]. split; [reflexivity |].
      split; [| lia]. intros _ Hfit. lia.
    + split; [exact Hlen |]. split; [rewrite Hu; exact Hnul |].
      split; [intros _; split; [reflexivity | exact Hu] |].
      split; [reflexivity |].
      split; [| lia]. intros _ _. split; [reflexivity | exact Hu].
  - intros Hs. apply uart_proc_read_ends; assumption.
Qed.

Lemma read_collects_within_bounds_witness :
  0 <= 256 /\
  exists r h',
    uart_proc_read (burst_env ["h"%byte; "i"%byte] 50) 1001 256 256 0 []
    = Done r h' /\
    retval r = 2 /\
    to_user r = ["h"%byte; "i"%byte] /\
    to_user r = rx_bytes h'.
Proof.
  split; [lia |].
  destruct (read_collects_within_bounds
              (burst_env ["h"%byte; "i"%byte] 50) 256 256 0 [] ltac:(lia))
    as (_ & Hpost & _).
  specialize (Hpost 1001%nat).
  destruct (uart_proc_read (burst_env ["h"%byte; "i"%byte] 50)
              1001 256 256 0 []) as [r h' | |] eqn:Hrun;
    [| vm_compute in Hrun; discriminate ..].
  cbn [post] in Hpost.
  destruct Hpost as (t & Ht & _ & _ & _ & Hdata & _).
  cbn [app] in Ht. subst t.
  assert (Hr : retval r = 2 /\ to_user r = ["h"%byte; "i"%byte])
    by (vm_compute in Hrun; inversion Hrun; split; reflexivity).
  destruct Hr as [Hr Hu].
  exists r, h'. split; [reflexivity |]. split; [exact Hr |].
  split; [exact Hu |].
  apply Hdata. lia.
Defined.

(** C5 as stated fails for [n = 0].  On a line whose first byte arrives
    late, a first read from cursor 0 times out and returns 0, leaving the
    cursor at 0; the next read on that cursor polls the peripheral again
    and returns two bytes. *)
Lemma read_after_timeout_polls_again :
  exists h1 r2 h2,
    uart_proc_read (line_env 1500 ["h"%byte; "i"%byte] all_nodes)
                   1001 256 256 0 []
    = Done {| retval := 0; to_user := []; pos := 0 |} h1 /\
    uart_proc_read (line_env 1500 ["h"%byte; "i"%byte] all_nodes)
                   1001 256 256 0 h1
    = Done r2 h2 /\
    retval r2 = 2 /\
    (count_reads MU_LSR h1 < count_reads MU_LSR h2)%nat.
Proof.
  eexists. eexists. eexists.
  split; [vm_compute; reflexivity |].
  split; [vm_compute; reflexivity |].
  split; [reflexivity | vm_compute; lia].
Qed.

Lemma rx_bytes_read_io t :
  rx_bytes t <> [] -> existsb alters_peripheral t = true.
Proof.
  induction t as [| e t IH]; intros H; [contradiction H; reflexivity |].
  cbn [existsb]. destruct e as [r v | | | | | | | | |];
    try (apply IH; exact H); try reflexivity.
  destruct r; try (apply IH; exact H). reflexivity.
Qed.

(** C9, as the code has it.  In the read handler the copy to user space
    fails exactly when the caller's buffer cannot take the collected
    bytes; the handler then returns [-EFAULT], leaves the cursor where it
    was and has stored to no register, but it has already taken those
    bytes out of MU_IO.  In the write handler a failing copy from user
    space makes the handler return [-EFAULT] with the history untouched:
    nothing is transmitted and the peripheral is not accessed. *)
Theorem fault_leaves_cursor_and_registers E fuel :
  (forall ucap count ppos h r h',
      0 <= count -> ppos <= 0 ->
      uart_proc_read E fuel ucap count ppos h = Done r h' ->
      exists t,
        h' = h ++ t /\
        ((ucap < List.length (rx_bytes t))%nat <-> retval r = - EFAULT) /\
        (retval r = - EFAULT ->
         pos r = ppos /\ reads_only t /\
         to_user r = firstn ucap (rx_bytes t) /\
         existsb alters_peripheral t = true)) /\
  (forall umem count h,
      0 <= count ->
      (List.length umem < Z.to_nat (Z.min count 255))%nat ->
      uart_proc_write E fuel umem count h = Done (- EFAULT) h).
Proof.
  split.
  - intros ucap count ppos h r h' Hc Hp Hrun.
    pose proof (uart_proc_read_post E fuel ucap count ppos h Hc Hp) as Hpost.
    rewrite Hrun in Hpost. cbn [post] in Hpost.
    destruct Hpost as (t & -> & Hro & _ & _ & ->).
    exists t. split; [reflexivity |].
    destruct (read_verdict_retval ucap ppos (rx_bytes t))
      as [(Hr & Hg) | [(Hr & Hlt & Hps & Hu) | (Hr & Hpos & Hle & _)]].
    + rewrite Hr, Hg. cbn [List.length]. unfold EFAULT.
      split; [split; [lia | discriminate] | discriminate].
    + split; [split; [intros _; exact Hr | intros _; exact Hlt] |].
      intros _. repeat split; try assumption.
      apply rx_bytes_read_io. intros Hnil. rewrite Hnil in Hlt.
      cbn in Hlt. lia.
    + unfold EFAULT. split; [split; [lia | lia] | lia].
  - intros umem count h Hc Hshort.
    unfold uart_proc_write, copy_from_user. change (KBUF_SIZE - 1) with 255.
    replace (Z.of_nat (Z.to_nat (Z.min count 255) - List.length umem) =? 0)
      with false by (symmetry; apply Z.eqb_neq; lia).
    reflexivity.
Qed.

Lemma fault_leaves_cursor_and_registers_witness :
  exists h',
    uart_proc_read (line_env 0 ["x"%byte] all_nodes) 1001 0 16 0 []
    = Done {| retval := - EFAULT; to_user := []; pos := 0 |} h' /\
    reads_only h' /\
    uart_proc_write (line_env 0 ["x"%byte] all_nodes) 1001 [] 3 []
    = Done (- EFAULT) [].
Proof.
  destruct (fault_leaves_cursor_and_registers
              (line_env 0 ["x"%byte] all_nodes) 1001) as [Hread Hwrite].
  destruct (uart_proc_read (line_env 0 ["x"%byte] all_nodes) 1001 0 16 0 [])
    as [r h' | |] eqn:Hrun; [| vm_compute in Hrun; discriminate ..].
  assert (Hr : r = {| retval := - EFAULT; to_user := []; pos := 0 |}).
  { vm_compute in Hrun. inversion Hrun. reflexivity. }
  destruct (Hread 0%nat 16 0 [] r h' ltac:(lia) ltac:(lia) Hrun)
    as (t & Ht & _ & Hfault).
  subst r. destruct (Hfault eq_refl) as (_ & Hro & _).
  exists h'. split; [reflexivity |]. cbn [app] in Ht. subst t.
  split; [exact Hro |].
  apply Hwrite; [lia | simpl; lia].
Defined.

(** C9 as stated fails in the read handler.  With one byte waiting in the
    receive FIFO and a user buffer that cannot be written, the read
    returns [-EFAULT] after it has taken the byte out of MU_IO. *)
Lemma read_fault_after_fifo_pop :
  exists h',
    uart_proc_read (line_env 0 ["x"%byte] all_nodes) 1001 0 16 0 []
    = Done {| retval := - EFAULT; to_user := []; pos := 0 |} h' /\
    In (MMIO_read MU_IO 120) h' /\
    existsb alters_peripheral h' = true.
Proof.
  eexists. split; [vm_compute; reflexivity |].
  split; [| reflexivity].
  do 3 right. left. reflexivity.
Qed.

(** ** What the code does with a line feed *)

(** C1 does not hold of the code.  Writing the three bytes a, LF, b stores
    a, CR, CR, LF, b to MU_IO: [uart_send_string] sends one CR ahead of the
    LF and [uart_send_char] another, where the interface promises a, CR,
    LF, b. *)
Theorem lf_is_sent_with_two_cr :
  uart_proc_write (line_env 0 [] all_nodes) 2 ["a"%byte; LF; "b"%byte] 3 []
  = Done 3
      [ MMIO_read MU_LSR 32; MMIO_write MU_IO 97;
        MMIO_read MU_LSR 32; MMIO_write MU_IO 13;
        MMIO_read MU_LSR 32; MMIO_write MU_IO 13;
        MMIO_read MU_LSR 32; MMIO_write MU_IO 10;
        MMIO_read MU_LSR 32; MMIO_write MU_IO 98;
        Printk KERN_INFO "UART TX: sent %zu bytes" [ArgInt 3] ] /\
  string_on_line ["a"%byte; LF; "b"%byte] = [97; 13; 13; 10; 98] /\
  crlf ["a"%byte; LF; "b"%byte] = [97; 13; 10; 98].
Proof. repeat split. Qed.

(** C6 holds of the truncation and of the return value, and fails where it
    relies on the translation of C1.  A 400-byte write returns 400 and
    sends only its first 255 bytes, but the LF among them goes out as CR,
    CR, LF. *)
Theorem truncated_write_sends_two_cr :
  exists h',
    uart_proc_write (line_env 0 [] all_nodes) 2 lf_payload 400 []
    = Done 400 h' /\
    writes_to MU_IO h' = [13; 13; 10] ++ repeat 97 254 /\
    writes_to MU_IO h' = string_on_line (firstn 255 lf_payload) /\
    crlf (firstn 255 lf_payload) = [13; 10] ++ repeat 97 254.
Proof.
  eexists. split; [vm_compute; reflexivity |].
  repeat split; vm_compute; reflexivity.
Qed.

(** C3 does not hold of the code.  The wait polls a 1001st time after its
    1000th sleep, and the test [timeout <= 0] that follows takes a wait
    that ended at that poll for a timeout.  On a line whose first byte
    shows at poll 1001, the read makes 1001 polls one millisecond apart,
    the last one finds data, and the handler returns 0 without entering
    the drain loop; had the byte shown one poll earlier, the read would
    have returned it. *)
Theorem data_at_last_poll_is_dropped :
  exists t,
    uart_proc_read (line_env 1000 ["h"%byte] all_nodes) 1001 256 256 0 []
    = Done {| retval := 0; to_user := []; pos := 0 |} t /\
    spaced_polls t = true /\
    polls t = repeat false 1000 ++ [true] /\
    count_reads MU_IO t = 0%nat /\
    exists t',
      uart_proc_read (line_env 999 ["h"%byte] all_nodes) 1001 256 256 0 []
      = Done {| retval := 1; to_user := ["h"%byte]; pos := 1 |} t'.
Proof.
  eexists. split; [vm_compute; reflexivity |].
  split; [vm_compute; reflexivity |].
  split; [vm_compute; reflexivity |].
  split; [vm_compute; reflexivity |].
  eexists. vm_compute. reflexivity.
Qed.

(** * Further properties of the driver *)

(** ** Guarded stores to the transmit FIFO *)

Lemma guard_scan_app prev t1 t2 :
  guard_scan prev (t1 ++ t2)
  = match guard_scan prev t1 with
    | Some p => guard_scan p t2
    | None => None
    end.
Proof.
  revert prev. induction t1 as [| e t1 IH]; intros prev; [reflexivity |].
  cbn [app guard_scan]. destruct (guard_step prev e); [apply IH | reflexivity].
Qed.

Lemma guarded_app t1 t2 : guarded t1 -> guarded t2 -> guarded (t1 ++ t2).
Proof.
  intros H1 H2 prev. rewrite guard_scan_app.
  destruct (guard_scan prev t1) as [p |] eqn:Hp; [apply H2 |].
  destruct (H1 prev Hp).
Qed.

Lemma guarded_nil : guarded [].
Proof. intros prev. discriminate. Qed.

Lemma ensures_bind {A B} (m : M A) (k : A -> M B) h (Q : B -> history -> Prop) :
  ensures (m h) (fun a h1 => ensures (k a h1) Q) -> ensures (bind m k h) Q.
Proof. unfold bind, ensures. destruct (m h); intros H; exact H. Qed.

Lemma ensures_weaken {A} (o : outcome A) (P Q : A -> history -> Prop) :
  ensures o P -> (forall a h, P a h -> Q a h) -> ensures o Q.
Proof. destruct o; simpl; auto. Qed.

Lemma tx_spin_guard E n :
  forall h u h',
    tx_spin E n h = Done u h' ->
    exists t, h' = h ++ t /\ forallb tx_event t = true /\
              forall prev, exists v, guard_scan prev t = Some (Some v) /\
                                     lsr_has_room v = true.
Proof.
  induction n as [| n IH]; intros h u h' Hrun; [discriminate |].
  cbn [tx_spin] in Hrun. unfold bind, readl in Hrun. cbv zeta in Hrun.
  destruct (Z.land (u32 (dev_read E h MU_LSR)) (Z.shiftl 1 5) =? 0) eqn:Hroom.
  - destruct (IH _ _ _ Hrun) as (t & -> & Hev & Hscan).
    exists (MMIO_read MU_LSR (u32 (dev_read E h MU_LSR)) :: t).
    rewrite <- app_assoc. split; [reflexivity |].
    split; [exact Hev |]. intros prev. apply Hscan.
  - inversion Hrun; subst.
    exists [MMIO_read MU_LSR (u32 (dev_read E h MU_LSR))].
    split; [reflexivity |]. split; [reflexivity |].
    intros prev. eexists. split; [reflexivity |].
    unfold lsr_has_room. rewrite Hroom. reflexivity.
Qed.

Lemma uart_send_char_guard E n :
  forall c h u h',
    uart_send_char E n c h = Done u h' ->
    exists t, h' = h ++ t /\ forallb tx_event t = true /\
              forall prev, guard_scan prev t = Some None.
Proof.
  induction n as [| n IH]; intros c h u h' Hrun; [discriminate |].
  cbn [uart_send_char] in Hrun.
  apply bind_inv in Hrun. destruct Hrun as (u1 & h1 & H1 & Hrun).
  apply bind_inv in Hrun. destruct Hrun as (u2 & h2 & H2 & Hrun).
  apply tx_spin_guard in H2. destruct H2 as (t2 & -> & Hev2 & Hscan2).
  unfold writel, emit in Hrun. inversion Hrun; subst; clear Hrun.
  assert (Hcr : exists t1, h1 = h ++ t1 /\ forallb tx_event t1 = true /\
                           forall prev, exists p, guard_scan prev t1 = Some p).
  { destruct (Byte.eqb c LF).
    - apply IH in H1. destruct H1 as (t1 & -> & Hev1 & Hscan1).
      exists t1. repeat split; [exact Hev1 |].
      intros prev. exists None. apply Hscan1.
    - inversion H1; subst. exists []. rewrite app_nil_r.
      repeat split. intros prev. exists prev. reflexivity. }
  destruct Hcr as (t1 & -> & Hev1 & Hscan1).
  eexists (t1 ++ t2 ++ [MMIO_write MU_IO _]).
  rewrite <- !app_assoc. split; [reflexivity |].
  split; [rewrite !forallb_app, Hev1, Hev2; reflexivity |].
  intros prev. rewrite guard_scan_app.
  destruct (Hscan1 prev) as (p1 & ->). rewrite guard_scan_app.
  destruct (Hscan2 p1) as (v & -> & Hv).
  cbn [guard_scan guard_step]. rewrite Hv. reflexivity.
Qed.

Lemma uart_send_string_guard E n s :
  forall h u h',
    uart_send_string E n s h = Done u h' ->
    exists t, h' = h ++ t /\ forallb tx_event t = true /\ guarded t.
Proof.
  induction s as [| [c |] s IH]; intros h u h' Hrun; try discriminate.
  cbn [uart_send_string] in Hrun.
  destruct (Byte.eqb c NUL).
  { inversion Hrun; subst. exists []. rewrite app_nil_r.
    repeat split. apply guarded_nil. }
  apply bind_inv in Hrun. destruct Hrun as (u1 & h1 & H1 & Hrun).
  apply bind_inv in Hrun. destruct Hrun as (u2 & h2 & H2 & Hrun).
  apply uart_send_char_guard in H2. destruct H2 as (t2 & -> & Hev2 & Hscan2).
  apply IH in Hrun. destruct Hrun as (t3 & -> & Hev3 & Hg3).
  assert (Hcr : exists t1, h1 = h ++ t1 /\ forallb tx_event t1 = true /\
                           guarded t1).
  { destruct (Byte.eqb c LF).
    - apply uart_send_char_guard in H1. destruct H1 as (t1 & -> & Hev1 & Hs1).
      exists t1. repeat split; [exact Hev1 |].
      intros prev. rewrite Hs1. discriminate.
    - inversion H1; subst. exists []. rewrite app_nil_r.
      repeat split. apply guarded_nil. }
  destruct Hcr as (t1 & -> & Hev1 & Hg1).
  exists (t1 ++ t2 ++ t3). rewrite <- !app_assoc. split; [reflexivity |].
  split; [rewrite !forallb_app, Hev1, Hev2, Hev3; reflexivity |].
  apply guarded_app; [exact Hg1 |]. apply guarded_app; [| exact Hg3].
  intros prev. rewrite Hscan2. discriminate.
Qed.

Lemma store_keeps_history buf idx c h kb h' :
  store buf idx c h = Done kb h' -> h' = h.
Proof.
  unfold store. destruct (_ && _); [| discriminate].
  unfold ret. intros H. inversion H. reflexivity.
Qed.

(** X1.  Whatever the payload and the device, a write that returns has
    accessed MU_LSR and MU_IO only, has never loaded from MU_IO, and has
    made each store to MU_IO right after a read of MU_LSR that showed bit 5
    (room in the transmit FIFO). *)
Theorem write_stores_only_with_room E fuel umem count h r h' :
  uart_proc_write E fuel umem count h = Done r h' ->
  exists t,
    h' = h ++ t /\
    forallb tx_event t = true /\
    guard_scan None t <> None.
Proof.
  unfold uart_proc_write.
  destruct (copy_from_user umem (Z.min count (KBUF_SIZE - 1)))
    as [missed bytes].
  destruct (negb (missed =? 0)).
  { intros Hrun. inversion Hrun; subst. exists []. rewrite app_nil_r.
    repeat split. discriminate. }
  intros Hrun.
  apply bind_inv in Hrun. destruct Hrun as (kb & h1 & Hst & Hrun).
  apply store_keeps_history in Hst. subst h1.
  apply bind_inv in Hrun. destruct Hrun as (u & h2 & Hsend & Hrun).
  apply uart_send_string_guard in Hsend.
  destruct Hsend as (t & -> & Hev & Hg).
  unfold bind, pr_info, emit, ret in Hrun. inversion Hrun; subst.
  eexists (t ++ [Printk _ _ _]). rewrite <- app_assoc.
  split; [reflexivity |].
  split; [rewrite forallb_app, Hev; reflexivity |].
  rewrite guard_scan_app.
  destruct (guard_scan None t) as [p |] eqn:Hp; [discriminate |].
  destruct (Hg None Hp).
Qed.

Lemma write_stores_only_with_room_witness :
  exists r h',
    uart_proc_write (line_env 0 [] all_nodes) 2 ["h"%byte; "i"%byte] 2 []
    = Done r h' /\
    guard_scan None h' <> None.
Proof.
  destruct (uart_proc_write (line_env 0 [] all_nodes) 2
              ["h"%byte; "i"%byte] 2 []) as [r h' | |] eqn:Hrun;
    [| vm_compute in Hrun; discriminate ..].
  exists r, h'. split; [reflexivity |].
  destruct (write_stores_only_with_room _ _ _ _ _ _ _ Hrun)
    as (t & Ht & _ & Hg).
  cbn [app] in Ht. subst t. exact Hg.
Defined.

(** ** Plain text goes out unchanged *)

Lemma string_on_line_plain s :
  ~ In LF s -> string_on_line s = map int_of_char s.
Proof.
  induction s as [| c s IH]; intros Hlf; [reflexivity |].
  unfold string_on_line, char_on_line in *. cbn [flat_map map].
  destruct (Byte.eqb c LF) eqn:Hc.
  - apply Byte.byte_dec_bl in Hc. subst c. destruct Hlf. left. reflexivity.
  - cbn [app]. rewrite IH; [reflexivity |].
    intros Hin. apply Hlf. right. exact Hin.
Qed.

(** X3.  When the first [min(count, 255)] bytes of the payload hold neither
    NUL nor LF, a write that returns has stored exactly those bytes to
    MU_IO, in order and unchanged, and has returned [count]. *)
Theorem plain_write_is_verbatim E fuel umem count h r h' :
  0 <= count < 2 ^ 63 ->
  (Z.to_nat (Z.min count 255) <= List.length umem)%nat ->
  ~ In NUL (firstn (Z.to_nat (Z.min count 255)) umem) ->
  ~ In LF (firstn (Z.to_nat (Z.min count 255)) umem) ->
  uart_proc_write E fuel umem count h = Done r h' ->
  r = count /\
  exists t,
    h' = h ++ t /\
    writes_to MU_IO t
    = map int_of_char (firstn (Z.to_nat (Z.min count 255)) umem).
Proof.
  intros Hc Hlen Hnul Hlf Hrun.
  rewrite uart_proc_write_run in Hrun by lia.
  apply bind_inv in Hrun. destruct Hrun as (u & h1 & Hsend & Hrun).
  apply uart_send_string_line in Hsend.
  destruct Hsend as (bs & t & Hbs & -> & Ht).
  rewrite c_str_prefix, until_nul_clean in Hbs by exact Hnul.
  inversion Hbs; subst bs.
  unfold bind, pr_info, emit, ret in Hrun. inversion Hrun; subst.
  split; [apply s64_small; lia |].
  eexists. rewrite <- app_assoc. split; [reflexivity |].
  rewrite writes_to_app, Ht, string_on_line_plain by exact Hlf.
  cbn. apply app_nil_r.
Qed.

Lemma plain_write_is_verbatim_witness :
  exists h',
    uart_proc_write (line_env 0 [] all_nodes) 1 ["h"%byte; "i"%byte] 2 []
    = Done 2 h' /\
    writes_to MU_IO h' = [104; 105].
Proof.
  destruct (uart_proc_write (line_env 0 [] all_nodes) 1
              ["h"%byte; "i"%byte] 2 []) as [r h' | |] eqn:Hrun;
    [| vm_compute in Hrun; discriminate ..].
  destruct (plain_write_is_verbatim
              (line_env 0 [] all_nodes) 1 ["h"%byte; "i"%byte] 2 [] r h'
              ltac:(lia) ltac:(simpl; lia)
              ltac:(simpl; intros [H | [H | []]]; discriminate)
              ltac:(simpl; intros [H | [H | []]]; discriminate)
              Hrun) as (Hr & t & Ht & Hio).
  cbn [app] in Ht. subst t r. exists h'. split; [reflexivity | exact Hio].
Defined.

(** ** Guarded loads from the receive FIFO, and the time a read sleeps *)

Lemma count_delays_app t1 t2 :
  count_delays (t1 ++ t2) = (count_delays t1 + count_delays t2)%nat.
Proof. unfold count_delays. rewrite filter_app, length_app. reflexivity. Qed.

Lemma rx_shape_app t1 t2 : rx_shape t1 -> rx_shape t2 -> rx_shape (t1 ++ t2).
Proof.
  intros [He1 Hg1] [He2 Hg2]. split.
  - rewrite forallb_app, He1, He2. reflexivity.
  - apply guarded_app; assumption.
Qed.

Lemma rx_shape_poll v : rx_shape [MMIO_read MU_LSR v].
Proof. split; [reflexivity |]. intros prev. discriminate. Qed.

Lemma rx_shape_delay : rx_shape [Udelay 1000].
Proof. split; [reflexivity |]. intros prev. discriminate. Qed.

Lemma rx_shape_nil : rx_shape [].
Proof. split; [reflexivity | apply guarded_nil]. Qed.

Lemma uart_receive_char_shape E h :
  exists c t,
    uart_receive_char E h = Done c (h ++ t) /\
    rx_shape t /\ count_delays t = 0%nat /\
    rx_bytes t = (if Byte.eqb c NUL then [] else [c]).
Proof.
  unfold uart_receive_char.
  rewrite (bind_done _ _ _ _ _ (uart_data_available_run E h)).
  destruct (s32 (Z.land (u32 (dev_read E h MU_LSR)) (Z.shiftl 1 0)) =? 0)
    eqn:Ha.
  - exists NUL. eexists. split; [reflexivity |].
    split; [apply rx_shape_poll |]. split; reflexivity.
  - unfold bind, readl, ret. cbv zeta. eexists. eexists.
    rewrite <- app_assoc. split; [reflexivity |].
    split; [| split; [reflexivity |]].
    + split; [reflexivity |]. intros prev.
      cbn [app guard_scan guard_step]. unfold lsr_ready. rewrite Ha.
      discriminate.
    + unfold rx_bytes. cbn [flat_map app]. apply app_nil_r.
Qed.

Lemma quiet_check_shape E (asked : bool) h :
  exists q t,
    (if asked then a <- uart_data_available E ;; ret (a =? 0) else ret false) h
    = Done q (h ++ t) /\
    rx_shape t /\ count_delays t = 0%nat /\ rx_bytes t = [].
Proof.
  destruct asked.
  - rewrite (bind_done _ _ _ _ _ (uart_data_available_run E h)).
    eexists. eexists. split; [reflexivity |].
    split; [apply rx_shape_poll |]. split; reflexivity.
  - exists false, []. rewrite app_nil_r.
    split; [reflexivity |]. split; [apply rx_shape_nil |]. split; reflexivity.
Qed.

Lemma first_byte_wait_shape E fuel :
  forall T h,
    T < 2 ^ 31 ->
    ensures (first_byte_wait E fuel T h)
            (fun _ h' =>
               exists t, h' = h ++ t /\ rx_shape t /\ rx_bytes t = [] /\
                         Z.of_nat (count_delays t) <= Z.max 0 T).
Proof.
  induction fuel as [| fuel IH]; intros T h HT; [exact I |].
  cbn [first_byte_wait].
  rewrite (bind_done _ _ _ _ _ (uart_data_available_run E h)).
  destruct (_ =? 0).
  - cbv zeta. destruct (Z.gtb_spec T 0) as [Hpos | Hneg].
    + unfold bind, udelay, emit.
      rewrite s32_small by lia.
      eapply ensures_weaken; [apply IH; lia |].
      intros r h' (t & -> & Hs & Hb & Hd).
      exists (MMIO_read MU_LSR (u32 (dev_read E h MU_LSR)) :: Udelay 1000 :: t).
      rewrite <- !app_assoc. split; [reflexivity |].
      split; [| split; [exact Hb |]].
      * apply (rx_shape_app [_]); [apply rx_shape_poll |].
        apply (rx_shape_app [_]); [apply rx_shape_delay | exact Hs].
      * change (count_delays (MMIO_read MU_LSR (u32 (dev_read E h MU_LSR))
                                :: Udelay 1000 :: t))
          with (S (count_delays t)).
        lia.
    + cbn. eexists. split; [reflexivity |].
      split; [apply rx_shape_poll |]. split; [reflexivity |]. cbn. lia.
  - cbn. eexists. split; [reflexivity |].
    split; [apply rx_shape_poll |]. split; [reflexivity |]. cbn. lia.
Qed.

(** The inner loop sleeps never; it lowers the idle counter only by
    resetting it on a character it stores. *)
Lemma rx_burst_shape E fuel count :
  forall st h,
    0 <= consecutive_no_data st < MAX_CONSECUTIVE_NO_DATA ->
    ensures (rx_burst E fuel count st h)
            (fun st' h' =>
               exists t,
                 h' = h ++ t /\ rx_shape t /\ count_delays t = 0%nat /\
                 0 <= consecutive_no_data st' < MAX_CONSECUTIVE_NO_DATA /\
                 consecutive_no_data st
                 <= consecutive_no_data st'
                    + MAX_CONSECUTIVE_NO_DATA
                      * Z.of_nat (List.length (rx_bytes t))).
Proof.
  induction fuel as [| fuel IH]; intros st h Hq; [exact I |].
  cbn [rx_burst].
  rewrite (bind_done _ _ _ _ _ (uart_data_available_run E h)).
  destruct (negb (_ =? 0) && rx_room count st).
  2:{ cbn. eexists. split; [reflexivity |].
      split; [apply rx_shape_poll |]. split; [reflexivity |].
      split; [exact Hq |]. cbn. lia. }
  destruct (uart_receive_char_shape
              E (h ++ [MMIO_read MU_LSR (u32 (dev_read E h MU_LSR))]))
    as (c & t1 & Hrc & Hs1 & Hd1 & Hb1).
  rewrite (bind_done _ _ _ _ _ Hrc).
  assert (Hnext : forall st1,
             0 <= consecutive_no_data st1 < MAX_CONSECUTIVE_NO_DATA ->
             consecutive_no_data st
             <= consecutive_no_data st1
                + MAX_CONSECUTIVE_NO_DATA * Z.of_nat (List.length (rx_bytes t1)) ->
             ensures
               (rx_burst E fuel count st1
                  ((h ++ [MMIO_read MU_LSR (u32 (dev_read E h MU_LSR))]) ++ t1))
               (fun st' h' =>
                  exists t,
                    h' = h ++ t /\ rx_shape t /\ count_delays t = 0%nat /\
                    0 <= consecutive_no_data st' < MAX_CONSECUTIVE_NO_DATA /\
                    consecutive_no_data st
                    <= consecutive_no_data st'
                       + MAX_CONSECUTIVE_NO_DATA
                         * Z.of_nat (List.length (rx_bytes t)))).
  { intros st1 Hq1 Hle.
    eapply ensures_weaken; [apply (IH st1 _ Hq1) |].
    intros st' h' (t & -> & Hs & Hd & Hq' & Hle').
    exists ((MMIO_read MU_LSR (u32 (dev_read E h MU_LSR)) :: t1) ++ t).
    split; [rewrite <- !app_assoc; reflexivity |].
    split; [apply rx_shape_app;
            [apply (rx_shape_app [_]); [apply rx_shape_poll | exact Hs1]
            | exact Hs] |].
    split; [rewrite count_delays_app, Hd;
            change (count_delays (MMIO_read MU_LSR (u32 (dev_read E h MU_LSR))
                                    :: t1)) with (count_delays t1);
            rewrite Hd1; reflexivity |].
    split; [exact Hq' |].
    rewrite rx_bytes_app. cbn [rx_bytes flat_map app]. fold (rx_bytes t1).
    rewrite length_app.
    unfold MAX_CONSECUTIVE_NO_DATA in *. lia. }
  destruct (Byte.eqb c NUL) eqn:Hc; cbn [negb].
  - unfold bind at 1. unfold ret at 1.
    apply Hnext; [exact Hq |]. rewrite Hb1. cbn. lia.
  - unfold bind at 1. unfold bind at 1. unfold store.
    destruct ((0 <=? i st) && (i st <? Z.of_nat (List.length (kbuf st))));
      [| exact I].
    unfold ret. apply Hnext; cbn [consecutive_no_data].
    + unfold MAX_CONSECUTIVE_NO_DATA. lia.
    + rewrite Hb1. cbn [List.length].
      unfold MAX_CONSECUTIVE_NO_DATA in *. lia.
Qed.

(** The outer loop sleeps once per idle tick; between two stored
    characters fewer than 300 ticks pass. *)
Lemma rx_drain_shape E fuel count :
  forall st h,
    0 <= consecutive_no_data st < MAX_CONSECUTIVE_NO_DATA ->
    ensures (rx_drain E fuel count st h)
            (fun st' h' =>
               exists t,
                 h' = h ++ t /\ rx_shape t /\
                 0 <= consecutive_no_data st' <= MAX_CONSECUTIVE_NO_DATA /\
                 Z.of_nat (count_delays t) + consecutive_no_data st
                 <= consecutive_no_data st'
                    + MAX_CONSECUTIVE_NO_DATA
                      * Z.of_nat (List.length (rx_bytes t))).
Proof.
  induction fuel as [| fuel IH]; intros st h Hq; [exact I |].
  cbn [rx_drain].
  destruct (rx_room count st).
  2:{ cbn. exists []. rewrite app_nil_r. split; [reflexivity |].
      split; [apply rx_shape_nil |]. cbn. lia. }
  apply ensures_bind.
  eapply ensures_weaken; [apply (rx_burst_shape E fuel count st h Hq) |].
  intros st1 h1 (t1 & -> & Hs1 & Hd1 & Hq1 & Hle1).
  (* what is left to do after the burst and the trace [t2] of the checks *)
  assert (Hrest : forall t2 (k : M rx_state),
             rx_shape t2 -> count_delays t2 = 0%nat -> rx_bytes t2 = [] ->
             ensures (k ((h ++ t1) ++ t2))
                     (fun st' h' =>
                        exists t,
                          h' = ((h ++ t1) ++ t2) ++ t /\ rx_shape t /\
                          0 <= consecutive_no_data st'
                            <= MAX_CONSECUTIVE_NO_DATA /\
                          Z.of_nat (count_delays t) + consecutive_no_data st1
                          <= consecutive_no_data st'
                             + MAX_CONSECUTIVE_NO_DATA
                               * Z.of_nat (List.length (rx_bytes t))) ->
             ensures (k ((h ++ t1) ++ t2))
                     (fun st' h' =>
                        exists t,
                          h' = h ++ t /\ rx_shape t /\
                          0 <= consecutive_no_data st'
                            <= MAX_CONSECUTIVE_NO_DATA /\
                          Z.of_nat (count_delays t) + consecutive_no_data st
                          <= consecutive_no_data st'
                             + MAX_CONSECUTIVE_NO_DATA
                               * Z.of_nat (List.length (rx_bytes t)))).
  { intros t2 k Hs2 Hd2 Hb2 Hk.
    eapply ensures_weaken; [exact Hk |].
    intros st' h' (t & -> & Hs & Hq' & Hle).
    exists ((t1 ++ t2) ++ t). split; [rewrite <- !app_assoc; reflexivity |].
    split; [repeat apply rx_shape_app; assumption |].
    split; [exact Hq' |].
    rewrite !count_delays_app, !rx_bytes_app, !length_app, Hd1, Hd2, Hb2.
    cbn [List.length]. unfold MAX_CONSECUTIVE_NO_DATA in *. lia. }
  (* an idle tick, then out at the threshold or round again *)
  assert (Htick : forall h2,
             ensures ((st2 <- rx_idle_tick st1 ;;
                       if consecutive_no_data st2 >=? MAX_CONSECUTIVE_NO_DATA
                       then ret st2 else rx_drain E fuel count st2) h2)
                     (fun st' h' =>
                        exists t,
                          h' = h2 ++ t /\ rx_shape t /\
                          0 <= consecutive_no_data st'
                            <= MAX_CONSECUTIVE_NO_DATA /\
                          Z.of_nat (count_delays t) + consecutive_no_data st1
                          <= consecutive_no_data st'
                             + MAX_CONSECUTIVE_NO_DATA
                               * Z.of_nat (List.length (rx_bytes t)))).
  { intros h2. unfold rx_idle_tick, bind, udelay, emit, ret.
    cbn [consecutive_no_data].
    assert (Hs : s32 (consecutive_no_data st1 + 1) = consecutive_no_data st1 + 1)
      by (apply s32_small; unfold MAX_CONSECUTIVE_NO_DATA in Hq1; lia).
    rewrite Hs.
    destruct (consecutive_no_data st1 + 1 >=? MAX_CONSECUTIVE_NO_DATA) eqn:Hge.
    - cbn [ensures]. exists [Udelay 1000]. split; [reflexivity |].
      split; [apply rx_shape_delay |].
      change (count_delays [Udelay 1000]) with 1%nat.
      change (rx_bytes [Udelay 1000]) with (@nil byte).
      cbn [consecutive_no_data List.length].
      unfold MAX_CONSECUTIVE_NO_DATA in *. lia.
    - rewrite Z.geb_leb in Hge. apply Z.leb_gt in Hge.
      eapply ensures_weaken; [apply IH; cbn [consecutive_no_data]; lia |].
      intros st' h' (t & -> & Hst & Hq' & Hle).
      cbn [consecutive_no_data] in Hle.
      exists (Udelay 1000 :: t). split; [rewrite <- app_assoc; reflexivity |].
      split; [apply (rx_shape_app [_]); [apply rx_shape_delay | exact Hst] |].
      split; [exact Hq' |].
      change (count_delays (Udelay 1000 :: t)) with (S (count_delays t)).
      change (rx_bytes (Udelay 1000 :: t)) with (rx_bytes t).
      lia. }
  destruct (quiet_check_shape E (i st1 >? 0) (h ++ t1))
    as (q & t2 & Hrun2 & Hs2 & Hd2 & Hb2).
  rewrite (bind_done _ _ _ _ _ Hrun2).
  destruct q.
  { apply (Hrest t2 _ Hs2 Hd2 Hb2). apply Htick. }
  destruct (quiet_check_shape E (i st1 =? 0) ((h ++ t1) ++ t2))
    as (q0 & t3 & Hrun3 & Hs3 & Hd3 & Hb3).
  rewrite (bind_done _ _ _ _ _ Hrun3).
  rewrite <- app_assoc.
  assert (Hs23 : rx_shape (t2 ++ t3)) by (apply rx_shape_app; assumption).
  assert (Hd23 : count_delays (t2 ++ t3) = 0%nat)
    by (rewrite count_delays_app, Hd2, Hd3; reflexivity).
  assert (Hb23 : rx_bytes (t2 ++ t3) = [])
    by (rewrite rx_bytes_app, Hb2, Hb3; reflexivity).
  destruct q0.
  - apply (Hrest (t2 ++ t3) _ Hs23 Hd23 Hb23). apply Htick.
  - apply (Hrest (t2 ++ t3) (rx_drain E fuel count st1) Hs23 Hd23 Hb23).
    eapply ensures_weaken; [apply (IH st1 _ Hq1) |].
    intros st' h' H. exact H.
Qed.

Lemma rx_deliver_shape ucap ppos st h :
  ensures (rx_deliver ucap ppos st h)
          (fun _ h' =>
             exists t, h' = h ++ t /\ rx_shape t /\
                       count_delays t = 0%nat /\ rx_bytes t = []).
Proof.
  assert (Hnil : exists t, h = h ++ t /\ rx_shape t /\
                           count_delays t = 0%nat /\ rx_bytes t = []).
  { exists []. rewrite app_nil_r. split; [reflexivity |].
    split; [apply rx_shape_nil |]. split; reflexivity. }
  unfold rx_deliver. destruct (i st =? 0); [exact Hnil |].
  unfold bind at 1. unfold store.
  destruct ((0 <=? i st) && (i st <? Z.of_nat (List.length (kbuf st))));
    [| exact I].
  unfold ret at 1. unfold bind at 1.
  destruct (peek _ _) as [src |]; [| exact I]. cbn [lift ret].
  destruct (copy_to_user ucap src (size_t (i st))) as [missed copied].
  destruct (negb (missed =? 0)); [exact Hnil |].
  unfold bind at 1. destruct (c_str _) as [text |]; [| exact I].
  cbn [lift ret]. unfold bind, pr_info, emit, ret. cbn [ensures].
  eexists. split; [reflexivity |].
  split; [| split; reflexivity].
  split; [reflexivity |]. intros prev. discriminate.
Qed.

(** A read that returns has run a trace of reception events with guarded
    FIFO accesses, and has called [udelay] at most 1000 times waiting for
    the first byte and then fewer than 300 times per character stored,
    plus the last 300 ticks. *)
Lemma uart_proc_read_shape E fuel ucap count ppos h :
  ensures (uart_proc_read E fuel ucap count ppos h)
          (fun _ h' =>
             exists t,
               h' = h ++ t /\ rx_shape t /\
               Z.of_nat (count_delays t)
               <= 1300 + 300 * Z.of_nat (List.length (rx_bytes t))).
Proof.
  unfold uart_proc_read.
  destruct (ppos >? 0).
  { cbn. exists []. rewrite app_nil_r. split; [reflexivity |].
    split; [apply rx_shape_nil |]. cbn. lia. }
  apply ensures_bind.
  eapply ensures_weaken; [apply (first_byte_wait_shape E fuel 1000 h); lia |].
  intros timeout h1 (t1 & -> & Hs1 & Hb1 & Hd1).
  destruct (timeout <=? 0).
  { cbn [ensures ret]. exists t1. split; [reflexivity |].
    split; [exact Hs1 |]. rewrite Hb1. cbn [List.length]. lia. }
  apply ensures_bind.
  eapply ensures_weaken;
    [apply (rx_drain_shape E fuel count rx_start (h ++ t1));
     unfold MAX_CONSECUTIVE_NO_DATA; cbn; lia |].
  intros st h2 (t2 & -> & Hs2 & Hq2 & Hd2).
  eapply ensures_weaken; [apply rx_deliver_shape |].
  intros r h3 (t3 & -> & Hs3 & Hd3 & Hb3).
  exists (t1 ++ t2 ++ t3). split; [rewrite <- !app_assoc; reflexivity |].
  split; [repeat apply rx_shape_app; assumption |].
  rewrite !count_delays_app, !rx_bytes_app, !length_app, Hb1, Hb3, Hd3.
  cbn [List.length consecutive_no_data rx_start] in *.
  unfold MAX_CONSECUTIVE_NO_DATA in *. lia.
Qed.

(** X2.  Whatever the device does, a read that returns has stored to no
    register, has accessed MU_LSR and MU_IO only, has slept in steps of
    1000 microseconds only, and has made each load from MU_IO right after
    a read of MU_LSR that showed bit 0 (a byte in the receive FIFO). *)
Theorem read_loads_only_when_ready E fuel ucap count ppos h r h' :
  uart_proc_read E fuel ucap count ppos h = Done r h' ->
  exists t,
    h' = h ++ t /\
    forallb rx_event t = true /\
    guard_scan None t <> None.
Proof.
  intros Hrun.
  pose proof (uart_proc_read_shape E fuel ucap count ppos h) as Hs.
  rewrite Hrun in Hs. cbn [ensures] in Hs.
  destruct Hs as (t & -> & [Hev Hg] & _).
  exists t. split; [reflexivity |]. split; [exact Hev | apply Hg].
Qed.

Lemma read_loads_only_when_ready_witness :
  exists r h',
    uart_proc_read (line_env 3 ["h"%byte; "i"%byte] all_nodes) 400 256 256 0 []
    = Done r h' /\
    retval r = 2 /\
    forallb rx_event h' = true /\
    guard_scan None h' <> None.
Proof.
  destruct (uart_proc_read (line_env 3 ["h"%byte; "i"%byte] all_nodes)
              400 256 256 0 []) as [r h' | |] eqn:Hrun;
    [| vm_compute in Hrun; discriminate ..].
  exists r, h'. split; [reflexivity |].
  split; [vm_compute in Hrun; inversion Hrun; reflexivity |].
  destruct (read_loads_only_when_ready _ _ _ _ _ _ _ _ Hrun)
    as (t & Ht & Hev & Hg).
  cbn [app] in Ht. subst t. split; assumption.
Defined.

Lemma slept_by_ticks t :
  forallb rx_event t = true -> slept t = 1000 * Z.of_nat (count_delays t).
Proof.
  induction t as [| e t IH]; intros Hev; [reflexivity |].
  cbn [forallb] in Hev. apply andb_prop in Hev. destruct Hev as [He Ht].
  specialize (IH Ht).
  destruct e; cbn [slept fold_right] in *; fold (slept t);
    try (rewrite IH; reflexivity); try discriminate.
  cbn [rx_event] in He. apply Z.eqb_eq in He. subst usecs.
  change (count_delays (Udelay 1000 :: t)) with (S (count_delays t)).
  rewrite IH. lia.
Qed.

(** X6.  A read that returns has spent at most 1.3 seconds plus 0.3
    seconds per non-NUL character it took off the line in [udelay]: at
    most 1000 ticks of one millisecond before the first byte, fewer than
    300 between one stored character and the next, and 300 at the end. *)
Theorem read_sleep_is_bounded E fuel ucap count ppos h r h' :
  uart_proc_read E fuel ucap count ppos h = Done r h' ->
  exists t,
    h' = h ++ t /\
    slept t <= 1300000 + 300000 * Z.of_nat (List.length (rx_bytes t)).
Proof.
  intros Hrun.
  pose proof (uart_proc_read_shape E fuel ucap count ppos h) as Hs.
  rewrite Hrun in Hs. cbn [ensures] in Hs.
  destruct Hs as (t & -> & [Hev _] & Hd).
  exists t. split; [reflexivity |].
  rewrite (slept_by_ticks t Hev). lia.
Qed.

Lemma read_sleep_is_bounded_witness :
  exists r h',
    uart_proc_read (line_env 3 ["h"%byte; "i"%byte] all_nodes) 400 256 256 0 []
    = Done r h' /\
    slept h' <= 1300000 + 300000 * 2.
Proof.
  destruct (uart_proc_read (line_env 3 ["h"%byte; "i"%byte] all_nodes)
              400 256 256 0 []) as [r h' | |] eqn:Hrun;
    [| vm_compute in Hrun; discriminate ..].
  exists r, h'. split; [reflexivity |].
  destruct (read_sleep_is_bounded _ _ _ _ _ _ _ _ Hrun) as (t & Ht & Hb).
  cbn [app] in Ht. subst t.
  assert (Hn : List.length (rx_bytes h') = 2%nat)
    by (vm_compute in Hrun; inversion Hrun; reflexivity).
  rewrite Hn in Hb. exact Hb.
Defined.

(** ** Transfers of size zero *)

Lemma first_byte_wait_no_io E fuel :
  forall T h,
    ensures (first_byte_wait E fuel T h)
            (fun _ h' => exists t, h' = h ++ t /\ count_reads MU_IO t = 0%nat).
Proof.
  induction fuel as [| fuel IH]; intros T h; [exact I |].
  cbn [first_byte_wait].
  rewrite (bind_done _ _ _ _ _ (uart_data_available_run E h)).
  destruct (_ =? 0).
  - cbv zeta. destruct (T >? 0).
    + unfold bind, udelay, emit.
      eapply ensures_weaken; [apply IH |].
      intros r h' (t & -> & Ht).
      exists (MMIO_read MU_LSR (u32 (dev_read E h MU_LSR)) :: Udelay 1000 :: t).
      rewrite <- !app_assoc. split; [reflexivity | exact Ht].
    + cbn. eexists. split; reflexivity.
  - cbn. eexists. split; reflexivity.
Qed.

(** X7.  A read with capacity 0 that gets past the gate returns 0 after the
    first-byte wait and takes nothing out of MU_IO, even when data is
    waiting; a write of length 0 sends nothing, touches no register and
    returns 0 whatever the user buffer is. *)
Theorem zero_size_transfers E fuel :
  (forall ucap ppos h,
      (1000 < fuel)%nat -> ppos <= 0 ->
      exists t,
        uart_proc_read E fuel ucap 0 ppos h
        = Done {| retval := 0; to_user := []; pos := ppos |} (h ++ t) /\
        count_reads MU_IO t = 0%nat /\
        reads_only t) /\
  (forall umem h,
      uart_proc_write E fuel umem 0 h
      = Done 0 (h ++ [Printk KERN_INFO "UART TX: sent %zu bytes" [ArgInt 0]])).
Proof.
  split.
  - intros ucap ppos h Hfuel Hp.
    destruct (first_byte_wait_run E 1000 fuel h Hfuel ltac:(lia))
      as (r & t & Hrun & _ & _ & Hro & _).
    change (Z.of_nat 1000) with 1000 in Hrun.
    pose proof (first_byte_wait_no_io E fuel 1000 h) as Hio.
    rewrite Hrun in Hio. cbn [ensures] in Hio.
    destruct Hio as (t' & Ht' & Hio). apply app_inv_head in Ht'. subst t'.
    exists t. split; [| split; [exact Hio | exact Hro]].
    unfold uart_proc_read.
    replace (ppos >? 0) with false
      by (symmetry; rewrite Z.gtb_ltb; apply Z.ltb_ge; lia).
    rewrite (bind_done _ _ _ _ _ Hrun).
    destruct (r <=? 0); [reflexivity |].
    destruct fuel as [| fuel]; [lia |]. reflexivity.
  - intros umem h. reflexivity.
Qed.

Lemma zero_size_transfers_witness :
  exists t,
    uart_proc_read (line_env 0 ["x"%byte] all_nodes) 1001 16 0 0 []
    = Done {| retval := 0; to_user := []; pos := 0 |} ([] ++ t) /\
    count_reads MU_IO t = 0%nat.
Proof.
  destruct (zero_size_transfers (line_env 0 ["x"%byte] all_nodes) 1001)
    as [Hread _].
  destruct (Hread 16%nat 0 [] ltac:(lia) ltac:(lia)) as (t & Hrun & Hio & _).
  exists t. split; assumption.
Defined.

(** ** Repeating the pin set-up *)

(** X8.  The two read-modify-write steps of the bring-up are idempotent:
    fed a word they produced, they produce it again, so repeating the
    bring-up does not change the pin configuration any further. *)
Theorem gpio_setup_is_idempotent f p :
  gpfsel1_word (gpfsel1_word (u32 f)) = gpfsel1_word (u32 f) /\
  gppuppdn0_word (gppuppdn0_word (u32 p)) = gppuppdn0_word (u32 p).
Proof.
  split.
  - unfold gpfsel1_word. bitblast.
  - unfold gppuppdn0_word. bitblast.
Qed.

(** ** Load and unload *)

Lemma mapped_access_app held t1 t2 :
  mapped_access held (t1 ++ t2)
  = mapped_access held t1
    && mapped_access (fold_left track_mapping t1 held) t2.
Proof.
  revert held. induction t1 as [| e t1 IH]; intros held; [reflexivity |].
  cbn [app mapped_access fold_left]. rewrite IH, andb_assoc. reflexivity.
Qed.

(** A transmission changes no holding and stays inside the AUX region. *)
Lemma tx_trace_holdings t held nodes :
  forallb tx_event t = true ->
  fold_left track_mapping t held = held /\
  fold_left track_node t nodes = nodes /\
  (is_held AUX_BASE held = true -> mapped_access held t = true).
Proof.
  revert held nodes. induction t as [| e t IH]; intros held nodes Hev.
  - repeat split.
  - cbn [forallb] in Hev. apply andb_prop in Hev. destruct Hev as [He Ht].
    destruct e as [r v | r v | | | | lvl fmt args | | | |]; try discriminate;
      try (destruct r; try discriminate);
      cbn [fold_left track_mapping track_node mapped_access];
      destruct (IH held nodes Ht) as (Hm & Hn & Ha);
      (split; [exact Hm | split; [exact Hn |]]);
      intros Hheld; cbn [region_of is_gpio_reg]; rewrite ?Hheld;
      apply Ha; exact Hheld.
Qed.

Lemma init_trace_mapped f p e :
  mapped_access [AUX_BASE; GPIO_BASE] (init_trace f p e) = true.
Proof. reflexivity. Qed.

(** Every way [uart_driver_init] can return. *)
Lemma uart_driver_init_outcome E fuel h r h' :
  uart_driver_init E fuel h = Done r h' ->
  exists t,
    h' = h ++ t /\ mapped_access [] t = true /\
    ((r = 0 /\ load_can_succeed E = true /\
      mappings_owned t = [AUX_BASE; GPIO_BASE] /\
      nodes_owned t = [PROC_UART_RX; PROC_UART_TX])
     \/ (r = - ENOMEM /\ load_can_succeed E = false /\
         mappings_owned t = [] /\ nodes_owned t = [])).
Proof.
  intros H. unfold uart_driver_init in H. unfold load_can_succeed.
  unfold bind at 1 in H. unfold ioremap at 1 in H.
  destruct (ioremap_ok E GPIO_BASE); cbn [negb andb] in *.
  2:{ unfold bind, pr_err, emit, ret in H. inversion H; subst.
      eexists. rewrite <- app_assoc. split; [reflexivity |].
      split; [reflexivity |]. right. repeat split. }
  unfold bind at 1 in H. unfold ioremap at 1 in H.
  destruct (ioremap_ok E AUX_BASE); cbn [negb andb] in *.
  2:{ unfold bind, pr_err, iounmap, emit, ret in H. inversion H; subst.
      eexists. rewrite <- !app_assoc. split; [reflexivity |].
      split; [reflexivity |]. right. repeat split. }
  destruct (uart_init_os_run E ((h ++ [Ioremap GPIO_BASE true])
                                  ++ [Ioremap AUX_BASE true]))
    as (f & p & e & Hinit).
  rewrite (bind_done _ _ _ _ _ Hinit) in H.
  pose proof (init_trace_holds_nothing (u32 f) (u32 p) (u32 e)
                [AUX_BASE; GPIO_BASE] []) as [Hhm Hhn].
  pose proof (init_trace_mapped (u32 f) (u32 p) (u32 e)) as Hacc.
  unfold bind at 1 in H. unfold proc_create at 1 in H.
  destruct (proc_create_ok E PROC_UART_TX); cbn [negb andb] in *.
  2:{ unfold bind, pr_err, iounmap, emit, ret in H. inversion H; subst.
      eexists. rewrite <- !app_assoc. split; [reflexivity |].
      unfold mappings_owned, nodes_owned.
      cbn [app mapped_access fold_left track_mapping track_node andb].
      rewrite mapped_access_app, !fold_left_app, Hacc, Hhm, Hhn.
      split; [reflexivity |]. right. repeat split. }
  unfold bind at 1 in H. unfold proc_create at 1 in H.
  destruct (proc_create_ok E PROC_UART_RX); cbn [negb andb] in *.
  2:{ unfold bind, pr_err, proc_remove, iounmap, emit, ret in H.
      inversion H; subst.
      eexists. rewrite <- !app_assoc. split; [reflexivity |].
      unfold mappings_owned, nodes_owned.
      cbn [app mapped_access fold_left track_mapping track_node andb].
      rewrite mapped_access_app, !fold_left_app, Hacc, Hhm, Hhn.
      split; [reflexivity |]. right. repeat split. }
  apply bind_inv in H. destruct H as (u & h1 & Hsend & H).
  apply uart_send_string_guard in Hsend.
  destruct Hsend as (t & -> & Hev & _).
  unfold bind, pr_info, emit, ret in H. inversion H; subst.
  destruct (tx_trace_holdings t [AUX_BASE; GPIO_BASE]
              [PROC_UART_RX; PROC_UART_TX] Hev) as (Htm & Htn & Hta).
  eexists. rewrite <- !app_assoc. split; [reflexivity |].
  unfold mappings_owned, nodes_owned.
  cbn [app mapped_access fold_left track_mapping track_node andb].
  rewrite mapped_access_app, !fold_left_app, Hacc, Hhm, Hhn.
  cbn [app mapped_access fold_left track_mapping track_node andb].
  rewrite mapped_access_app, !fold_left_app, Htm, Htn, (Hta eq_refl).
  split; [reflexivity |]. left. repeat split.
Qed.

Lemma uart_driver_init_ends E h :
  tx_drains E -> exists fuel r h', uart_driver_init E fuel h = Done r h'.
Proof.
  intros Hdrain.
  destruct (uart_init_os_run E ((h ++ [Ioremap GPIO_BASE true])
                                  ++ [Ioremap AUX_BASE true]))
    as (f & p & e & Hinit).
  destruct (uart_send_string_ends E Hdrain (c_literal load_banner) load_banner
              (eq_trans (c_str_prefix load_banner []) (f_equal Some eq_refl))
              (((((h ++ [Ioremap GPIO_BASE true]) ++ [Ioremap AUX_BASE true])
                   ++ init_trace (u32 f) (u32 p) (u32 e))
                  ++ [Proc_create PROC_UART_TX 438 true])
                 ++ [Proc_create PROC_UART_RX 438 true]))
    as (fuel & h2 & Hsend).
  exists fuel. unfold uart_driver_init.
  unfold bind at 1. unfold ioremap at 1.
  destruct (ioremap_ok E GPIO_BASE); cbn [negb];
    [| eexists; eexists; reflexivity].
  unfold bind at 1. unfold ioremap at 1.
  destruct (ioremap_ok E AUX_BASE); cbn [negb];
    [| eexists; eexists; reflexivity].
  rewrite (bind_done _ _ _ _ _ Hinit).
  unfold bind at 1. unfold proc_create at 1.
  destruct (proc_create_ok E PROC_UART_TX); cbn [negb];
    [| eexists; eexists; reflexivity].
  unfold bind at 1. unfold proc_create at 1.
  destruct (proc_create_ok E PROC_UART_RX); cbn [negb];
    [| eexists; eexists; reflexivity].
  rewrite (bind_done _ _ _ _ _ Hsend).
  eexists. eexists. reflexivity.
Qed.

(** X4.  [uart_driver_init] returns 0 exactly when both mappings and both
    nodes could be obtained, and [-ENOMEM] otherwise.  On any return every
    register access it made fell on a region mapped at that moment; on
    success it holds both mappings and both nodes.  It does return when
    the transmitter drains. *)
Theorem load_outcome E h :
  (forall fuel r h',
      uart_driver_init E fuel h = Done r h' ->
      (r = 0 <-> load_can_succeed E = true) /\
      (r = 0 \/ r = - ENOMEM) /\
      exists t,
        h' = h ++ t /\ mapped_access [] t = true /\
        (r = 0 ->
         mappings_owned t = [AUX_BASE; GPIO_BASE] /\
         nodes_owned t = [PROC_UART_RX; PROC_UART_TX])) /\
  (tx_drains E -> exists fuel r h', uart_driver_init E fuel h = Done r h').
Proof.
  split; [| apply uart_driver_init_ends].
  intros fuel r h' Hrun.
  destruct (uart_driver_init_outcome E fuel h r h' Hrun)
    as (t & -> & Hacc & [(Hr & Hok & Hm & Hn) | (Hr & Hno & Hm & Hn)]).
  - split; [split; intros _; assumption |].
    split; [left; exact Hr |].
    exists t. repeat split; assumption.
  - unfold ENOMEM in Hr. split; [split; [lia | congruence] |].
    split; [right; exact Hr |].
    exists t. split; [reflexivity |]. split; [exact Hacc | lia].
Qed.

Lemma load_outcome_witness :
  exists fuel h',
    uart_driver_init (line_env 0 [] all_nodes) fuel [] = Done 0 h' /\
    mappings_owned h' = [AUX_BASE; GPIO_BASE].
Proof.
  destruct (load_outcome (line_env 0 [] all_nodes) []) as [Hout Hends].
  destruct (Hends (line_env_drains 0 [] all_nodes)) as (fuel & r & h' & Hrun).
  destruct (Hout fuel r h' Hrun) as (Hiff & _ & t & Ht & _ & Hown).
  assert (Hr : r = 0) by (apply Hiff; reflexivity).
  subst r. exists fuel, h'. split; [exact Hrun |].
  cbn [app] in Ht. subst t. apply (Hown eq_refl).
Defined.

Lemma uart_driver_exit_trace E fuel (uart gpio : bool) h h' :
  uart_driver_exit E fuel uart gpio h = Done tt h' ->
  exists t,
    forallb tx_event t = true /\
    h' = h ++ t
           ++ [Proc_remove PROC_UART_TX; Proc_remove PROC_UART_RX]
           ++ (if uart then [Iounmap AUX_BASE] else [])
           ++ (if gpio then [Iounmap GPIO_BASE] else [])
           ++ [Printk KERN_INFO "UART driver unloaded." []].
Proof.
  intros H. unfold uart_driver_exit in H.
  apply bind_inv in H. destruct H as (u & h1 & Hsend & H).
  apply uart_send_string_guard in Hsend.
  destruct Hsend as (t & -> & Hev & _).
  exists t. split; [exact Hev |].
  unfold bind, proc_remove, iounmap, pr_info, emit, ret in H.
  destruct uart, gpio; inversion H; subst;
    rewrite <- !app_assoc; reflexivity.
Qed.

(** X5.  Unloading after a successful load gives everything back: over
    the two runs together the driver ends holding no mapping and no node,
    and every register access of both runs fell on a region mapped at that
    moment, so the farewell banner is sent while the AUX region is still
    mapped. *)
Theorem load_then_unload_releases_all E fuel1 fuel2 h h1 h2 :
  uart_driver_init E fuel1 h = Done 0 h1 ->
  uart_driver_exit E fuel2 true true h1 = Done tt h2 ->
  exists t,
    h2 = h ++ t /\
    mappings_owned t = [] /\
    nodes_owned t = [] /\
    mapped_access [] t = true.
Proof.
  intros Hload Hexit.
  destruct (uart_driver_init_outcome E fuel1 h 0 h1 Hload)
    as (t1 & -> & Hacc1 & [(_ & _ & Hm1 & Hn1) | (Hr & _)]);
    [| unfold ENOMEM in Hr; discriminate].
  destruct (uart_driver_exit_trace E fuel2 true true _ _ Hexit)
    as (t2 & Hev2 & ->).
  destruct (tx_trace_holdings t2 [AUX_BASE; GPIO_BASE]
              [PROC_UART_RX; PROC_UART_TX] Hev2) as (Htm & Htn & Hta).
  eexists. rewrite <- app_assoc. split; [reflexivity |].
  unfold mappings_owned, nodes_owned in *. cbn [app].
  rewrite mapped_access_app, !fold_left_app, Hacc1, Hm1, Hn1.
  rewrite mapped_access_app, Htm, Htn, (Hta eq_refl).
  repeat split.
Qed.

Lemma load_then_unload_releases_all_witness :
  exists h1 h2,
    uart_driver_init (line_env 0 [] all_nodes) 2 [] = Done 0 h1 /\
    uart_driver_exit (line_env 0 [] all_nodes) 2 true true h1 = Done tt h2 /\
    mappings_owned h2 = [] /\ nodes_owned h2 = [].
Proof.
  set (h1 := match uart_driver_init (line_env 0 [] all_nodes) 2 [] with
             | Done _ h => h
             | _ => []
             end).
  set (h2 := match uart_driver_exit (line_env 0 [] all_nodes) 2 true true h1
             with
             | Done _ h => h
             | _ => []
             end).
  assert (Hload : uart_driver_init (line_env 0 [] all_nodes) 2 [] = Done 0 h1)
    by (vm_compute; reflexivity).
  assert (Hexit : uart_driver_exit (line_env 0 [] all_nodes) 2 true true h1
                  = Done tt h2)
    by (vm_compute; reflexivity).
  exists h1, h2. split; [exact Hload |]. split; [exact Hexit |].
  destruct (load_then_unload_releases_all _ _ _ _ _ _ Hload Hexit)
    as (t & Ht & Hm & Hn & _).
  cbn [app] in Ht. rewrite Ht. split; assumption.
Defined.

(** ** What a string looks like on the line *)

Lemma string_on_line_flat bs :
  string_on_line bs
  = flat_map (fun c => if Byte.eqb c LF then [13; 13; 10] else [int_of_char c])
             bs.
Proof.
  unfold string_on_line, char_on_line.
  induction bs as [| c bs IH]; [reflexivity |].
  cbn [flat_map]. rewrite IH.
  destruct (Byte.eqb c LF) eqn:Hc; reflexivity.
Qed.

(** X9.  For a buffer holding the bytes [bs] up to its first NUL, a call of
    [uart_send_string] that returns has stored to MU_IO the bytes of [bs]
    in order, each unchanged, except that every LF went out as CR, CR, LF;
    the call does return on a line whose transmitter drains, and it never
    faults. *)
Theorem send_string_on_the_line E s bs h :
  c_str s = Some bs ->
  (forall fuel u h',
      uart_send_string E fuel s h = Done u h' ->
      exists t,
        h' = h ++ t /\
        writes_to MU_IO t
        = flat_map (fun c => if Byte.eqb c LF then [13; 13; 10]
                             else [int_of_char c]) bs) /\
  (forall fuel, uart_send_string E fuel s h <> Fault) /\
  (tx_drains E -> exists fuel h', uart_send_string E fuel s h = Done tt h').
Proof.
  intros Hs. split; [| split].
  - intros fuel u h' Hrun.
    apply uart_send_string_line in Hrun.
    destruct Hrun as (bs' & t & Hbs & -> & Ht).
    rewrite Hs in Hbs. inversion Hbs; subst bs'.
    exists t. split; [reflexivity |].
    rewrite Ht. apply string_on_line_flat.
  - intros fuel. apply (uart_send_string_safe E fuel s bs h Hs).
  - intros Hdrain. apply (uart_send_string_ends E Hdrain s bs Hs).
Qed.

Lemma send_string_on_the_line_witness :
  exists h',
    uart_send_string (line_env 0 [] all_nodes) 2
                     (c_literal ["o"%byte; "k"%byte; LF]) []
    = Done tt h' /\
    writes_to MU_IO h' = [111; 107; 13; 13; 10].
Proof.
  destruct (send_string_on_the_line (line_env 0 [] all_nodes)
              (c_literal ["o"%byte; "k"%byte; LF]) ["o"%byte; "k"%byte; LF] []
              eq_refl) as (Hline & _ & _).
  set (h' := match uart_send_string (line_env 0 [] all_nodes) 2
                     (c_literal ["o"%byte; "k"%byte; LF]) [] with
             | Done _ h => h
             | _ => []
             end).
  assert (Hrun : uart_send_string (line_env 0 [] all_nodes) 2
                   (c_literal ["o"%byte; "k"%byte; LF]) [] = Done tt h')
    by (vm_compute; reflexivity).
  exists h'. split; [exact Hrun |].
  destruct (Hline _ _ _ Hrun) as (t & Ht & Hio).
  cbn [app] in Ht. rewrite Ht. exact Hio.
Defined.

(** ** The status bits *)

Lemma land_one v : Z.land v 1 = Z.b2z (Z.testbit v 0).
Proof.
  change 1 with (Z.ones 1). rewrite Z.land_ones by lia.
  rewrite Z.bit0_mod. reflexivity.
Qed.

Lemma land_bit5 v : Z.land v (Z.shiftl 1 5) = 32 * Z.b2z (Z.testbit v 5).
Proof.
  apply Z.bits_inj'. intros n Hn. rewrite Z.land_spec.
  change (Z.shiftl 1 5) with (2 ^ 5). rewrite Z.pow2_bits_eqb by lia.
  destruct (Z.eqb_spec 5 n) as [<- | Hne].
  - rewrite andb_true_r. destruct (Z.testbit v 5); reflexivity.
  - rewrite andb_false_r. destruct (Z.testbit v 5); cbn [Z.b2z].
    + change (32 * 1) with (2 ^ 5). rewrite Z.pow2_bits_eqb by lia.
      symmetry. apply Z.eqb_neq. exact Hne.
    + rewrite Z.testbit_0_l. reflexivity.
Qed.

(** X10.  The driver's two tests of the line status register are tests of
    single bits of the word the device returns: [uart_data_available]
    returns 1 when bit 0 is set and 0 when it is clear, and the spin of
    [uart_send_char] ends at the first status read with bit 5 set. *)
Theorem status_tests_are_bit_tests E h :
  uart_data_available E h
  = Done (Z.b2z (Z.testbit (dev_read E h MU_LSR) 0))
         (h ++ [MMIO_read MU_LSR (u32 (dev_read E h MU_LSR))]) /\
  rx_ready E h = Z.testbit (dev_read E h MU_LSR) 0 /\
  tx_ready E h = Z.testbit (dev_read E h MU_LSR) 5 /\
  (forall fuel,
      tx_spin E (S fuel) h
      = if Z.testbit (dev_read E h MU_LSR) 5
        then Done tt (h ++ [MMIO_read MU_LSR (u32 (dev_read E h MU_LSR))])
        else tx_spin E fuel
               (h ++ [MMIO_read MU_LSR (u32 (dev_read E h MU_LSR))])).
Proof.
  assert (H0 : s32 (Z.land (u32 (dev_read E h MU_LSR)) (Z.shiftl 1 0))
               = Z.b2z (Z.testbit (dev_read E h MU_LSR) 0)).
  { change (Z.shiftl 1 0) with 1. rewrite land_one, u32_testbit.
    cbn [Z.ltb Z.compare andb].
    destruct (Z.testbit (dev_read E h MU_LSR) 0); reflexivity. }
  assert (H5 : (Z.land (u32 (dev_read E h MU_LSR)) (Z.shiftl 1 5) =? 0)
               = negb (Z.testbit (dev_read E h MU_LSR) 5)).
  { rewrite land_bit5, u32_testbit. cbn [Z.ltb Z.compare andb].
    destruct (Z.testbit (dev_read E h MU_LSR) 5); reflexivity. }
  split; [rewrite uart_data_available_run, H0; reflexivity |].
  split; [unfold rx_ready, lsr_ready; rewrite H0;
          destruct (Z.testbit (dev_read E h MU_LSR) 0); reflexivity |].
  split; [unfold tx_ready; rewrite H5; apply negb_involutive |].
  intros fuel. cbn [tx_spin]. unfold bind, readl. cbv zeta.
  rewrite H5. destruct (Z.testbit (dev_read E h MU_LSR) 5); reflexivity.
Qed.

(** * The cursor gate across two reads *)

Lemma first_byte_wait_polls E fuel T h :
  ensures (first_byte_wait E fuel T h)
          (fun _ h' =>
             exists t, h' = h ++ t /\ (1 <= count_reads MU_LSR t)%nat).
Proof.
  destruct fuel as [| fuel]; [exact I |].
  cbn [first_byte_wait].
  rewrite (bind_done _ _ _ _ _ (uart_data_available_run E h)).
  destruct (_ =? 0).
  - cbv zeta. destruct (T >? 0).
    + unfold bind, udelay, emit.
      eapply ensures_weaken; [apply first_byte_wait_no_io |].
      intros r h' (t & -> & _).
      exists (MMIO_read MU_LSR (u32 (dev_read E h MU_LSR)) :: Udelay 1000 :: t).
      rewrite <- !app_assoc. split; [reflexivity |]. cbn. lia.
    + cbn. eexists. split; [reflexivity |]. cbn. lia.
  - cbn. eexists. split; [reflexivity |]. cbn. lia.
Qed.

(** A read that is not stopped by the gate polls the status register at
    least once. *)
Lemma uart_proc_read_polls E fuel ucap count ppos h :
  ppos <= 0 ->
  ensures (uart_proc_read E fuel ucap count ppos h)
          (fun _ h' =>
             exists t, h' = h ++ t /\ (1 <= count_reads MU_LSR t)%nat).
Proof.
  intros Hp. unfold uart_proc_read.
  replace (ppos >? 0) with false
    by (symmetry; rewrite Z.gtb_ltb; apply Z.ltb_ge; lia).
  apply ensures_bind.
  eapply ensures_weaken; [apply first_byte_wait_polls |].
  intros timeout h1 (t1 & -> & Hp1).
  destruct (timeout <=? 0).
  { cbn [ensures ret]. exists t1. split; [reflexivity | exact Hp1]. }
  apply ensures_bind.
  eapply ensures_weaken;
    [apply (rx_drain_shape E fuel count rx_start (h ++ t1));
     unfold MAX_CONSECUTIVE_NO_DATA; cbn; lia |].
  intros st h2 (t2 & -> & _).
  eapply ensures_weaken; [apply rx_deliver_shape |].
  intros r h3 (t3 & -> & _).
  exists (t1 ++ t2 ++ t3). split; [rewrite <- !app_assoc; reflexivity |].
  rewrite count_reads_app. lia.
Qed.

(** C5, as the code has it.  Take a read entered with a cursor that is not
    negative.  If it returns [n > 0] bytes, or was entered with the cursor
    above 0, it leaves the cursor above 0 and the next read on that cursor
    returns 0 at the gate: it adds no event to the history, so it polls
    nothing.  If it returns 0 it leaves the cursor where it was; entered
    at cursor 0, the next read on that cursor is not stopped by the gate
    and polls the status register again. *)
Theorem read_after_data_returns_zero E fuel ucap count ppos h r h' :
  0 <= count -> 0 <= ppos ->
  uart_proc_read E fuel ucap count ppos h = Done r h' ->
  (0 < retval r \/ 0 < ppos ->
   0 < pos r /\
   forall fuel2 ucap2 count2,
     uart_proc_read E fuel2 ucap2 count2 (pos r) h'
     = Done {| retval := 0; to_user := []; pos := pos r |} h') /\
  (retval r = 0 -> pos r = ppos) /\
  (retval r = 0 -> ppos = 0 ->
   forall fuel2 ucap2 count2 r2 h2,
     uart_proc_read E fuel2 ucap2 count2 (pos r) h' = Done r2 h2 ->
     exists t, h2 = h' ++ t /\ (1 <= count_reads MU_LSR t)%nat).
Proof.
  intros Hc Hp Hrun.
  assert (Hcur : (0 < retval r \/ 0 < ppos -> 0 < pos r) /\
                 (retval r = 0 -> pos r = ppos)).
  { destruct (Z.ltb_spec 0 ppos) as [Hgate | Hgate].
    - rewrite uart_proc_read_gate in Hrun by exact Hgate.
      inversion Hrun; subst. cbn. split; [intros _; exact Hgate | reflexivity].
    - pose proof (uart_proc_read_post E fuel ucap count ppos h Hc Hgate)
        as Hpost.
      rewrite Hrun in Hpost. cbn [post] in Hpost.
      destruct Hpost as (t & _ & _ & Hlen & _ & ->).
      destruct (read_verdict_retval ucap ppos (rx_bytes t))
        as [(Hr & Hg) | [(Hr & _) | (Hr & Hpos & _ & _ & Hps)]].
      + split; [lia |]. intros _. rewrite Hg. reflexivity.
      + unfold EFAULT in Hr. split; lia.
      + split; [| lia]. intros _. rewrite Hps, s64_small; lia. }
  destruct Hcur as [Hadv Hsame].
  split; [| split; [exact Hsame |]].
  - intros Hn. specialize (Hadv Hn). split; [exact Hadv |].
    intros fuel2 ucap2 count2. apply uart_proc_read_gate. exact Hadv.
  - intros Hr0 Hp0 fuel2 ucap2 count2 r2 h2 Hrun2.
    pose proof (uart_proc_read_polls E fuel2 ucap2 count2 (pos r) h'
                  ltac:(rewrite (Hsame Hr0); lia)) as Hpolls.
    rewrite Hrun2 in Hpolls. exact Hpolls.
Qed.

Lemma read_after_data_returns_zero_witness :
  exists r h',
    uart_proc_read (line_env 0 ["h"%byte; "i"%byte] all_nodes) 1001 256 256 0 []
    = Done r h' /\
    retval r = 2 /\
    uart_proc_read (line_env 0 ["h"%byte; "i"%byte] all_nodes) 0 256 256
                   (pos r) h'
    = Done {| retval := 0; to_user := []; pos := pos r |} h'.
Proof.
  destruct (uart_proc_read (line_env 0 ["h"%byte; "i"%byte] all_nodes)
              1001 256 256 0 []) as [r h' | |] eqn:Hrun;
    [| vm_compute in Hrun; discriminate ..].
  exists r, h'. split; [reflexivity |].
  assert (Hr : retval r = 2).
  { vm_compute in Hrun. inversion Hrun. reflexivity. }
  split; [exact Hr |].
  destruct (read_after_data_returns_zero
              (line_env 0 ["h"%byte; "i"%byte] all_nodes) 1001 256 256 0 []
              r h' ltac:(lia) ltac:(lia) Hrun) as (Hgate & _ & _).
  apply Hgate. left. lia.
Defined.
